(** * AgentStack worker: chunking, embeddings, storage and ingestion tasks

    A shallow embedding of the Python worker package [agentstack_worker]
    ([utils/docling_parser.py], [utils/embeddings.py], [utils/database.py],
    [tasks.py]) together with the properties of its ingestion-and-retrieval
    pipeline.

    Conventions.
    - A Python [str] holding document text is a [list ascii], one element per
      code point (texts are taken over the code points below 256).  Short
      identifiers (task ids, status names, messages) are Rocq [string]s.
    - Python integers are [Z]; indices may be negative and follow Python's
      slice rules.
    - A [while] loop that may fail to terminate runs on fuel and returns
      [None] when the fuel is exhausted.
    - Exceptions are values of type [exn]; a call that may raise returns a
      [result].
    - The services around the worker (the document converter, the
      providers, the storage engine with its job ledger, the file system)
      are parameters.  Every statement sent to the storage runs in a
      session of its own, and the engine may refuse it.
    - A [double precision] value of the storage engine is a number, taken
      exactly, or NaN. *)

From Stdlib Require Import ZArith QArith Lia Lqa Ascii String.
From stdpp Require Import gmap strings list fin_maps pretty sorting.

Local Open Scope Z_scope.

(** ** Python strings, slices and [str.rfind] *)

Module Py.

Abbreviation str := (list ascii).

(** [len(t)] *)
Definition len (t : str) : Z := Z.of_nat (List.length t).

(** A string literal as text. *)
Definition lit (s : string) : str := list_ascii_of_string s.

(** Index normalisation of a slice bound ([PySlice_AdjustIndices], step 1):
    a negative bound counts from the end, then the bound is clipped to
    [0 .. n]. *)
Definition adjust_index (n i : Z) : Z :=
  if i <? 0 then Z.max (i + n) 0 else Z.min i n.

(** [t[a:b]], for a string or a list. *)
Definition slice {A} (t : list A) (a b : Z) : list A :=
  let n := Z.of_nat (List.length t) in
  let a' := adjust_index n a in
  let b' := adjust_index n b in
  take (Z.to_nat (b' - a')) (drop (Z.to_nat a') t).

(** [t.startswith(sub)] *)
Fixpoint starts_with (sub t : str) : bool :=
  match sub, t with
  | [], _ => true
  | _ :: _, [] => false
  | c :: sub', d :: t' => if Ascii.eqb c d then starts_with sub' t' else false
  end.

(** [sub] occurs in [t] at offset [i]. *)
Definition occurs_at (t sub : str) (i : Z) : bool :=
  (0 <=? i) && starts_with sub (drop (Z.to_nat i) t).

(** Candidates [lo + k - 1], ..., [lo], highest first. *)
Fixpoint rscan (t sub : str) (lo : Z) (k : nat) : Z :=
  match k with
  | O => -1
  | S k' =>
      if occurs_at t sub (lo + Z.of_nat k') then lo + Z.of_nat k'
      else rscan t sub lo k'
  end.

(** [t.rfind(sub, a, b)]: the bounds are adjusted as CPython's
    [ADJUST_INDICES] does ([b] clipped to the length, negative bounds
    counted from the end and clipped at 0), then the highest offset [i]
    with [a <= i <= b - len(sub)] where [sub] occurs is returned, or [-1]. *)
Definition rfind (t sub : str) (a b : Z) : Z :=
  let n := len t in
  let b' := if n <? b then n else if b <? 0 then Z.max (b + n) 0 else b in
  let a' := if a <? 0 then Z.max (a + n) 0 else a in
  rscan t sub a' (Z.to_nat (b' - len sub - a' + 1)).

(** The adjusted bounds of [rfind], on their own. *)
Definition rfind_lo (t : str) (a : Z) : Z :=
  if a <? 0 then Z.max (a + len t) 0 else a.

Definition rfind_hi (t : str) (b : Z) : Z :=
  if len t <? b then len t else if b <? 0 then Z.max (b + len t) 0 else b.

(** [c.isspace()] on the code points below 256: TAB..CR, FS..US, SPACE,
    NEL and NBSP. *)
Definition isspace (c : ascii) : bool :=
  let n := Z.of_nat (nat_of_ascii c) in
  ((9 <=? n) && (n <=? 13)) || ((28 <=? n) && (n <=? 32))
  || (n =? 133) || (n =? 160).

Fixpoint lstrip (t : str) : str :=
  match t with
  | [] => []
  | c :: t' => if isspace c then lstrip t' else t
  end.

Definition rstrip (t : str) : str := rev (lstrip (rev t)).

(** [t.strip()] *)
Definition strip (t : str) : str := rstrip (lstrip t).

(** [int(n * 0.2)] for an integer [n]: the product is taken in binary
    floating point and truncated toward zero.  The double nearest to 0.2
    lies above 1/5 by less than 2^-56, so for |n| < 2^50 the truncation
    is the integer quotient of [n] by 5. *)
Definition int_fifth (n : Z) : Z := Z.quot n 5.

End Py.

(** ** [docling_parser.chunk_text] *)

Module Chunker.
Import Py.

Definition nl : ascii := ascii_of_nat 10.

(** The separators, in the order the source tries them:
    ['. ', '.\n', '! ', '? ', '\n\n']. *)
Definition seps : list str :=
  [ ["."; " "]%char; ["."%char; nl]; ["!"; " "]%char; ["?"; " "]%char; [nl; nl] ].

(** The [for sep in ...] loop: the first separator, in list order, that
    [rfind] locates in [text[search_start:end]] moves the end just after
    its last occurrence; later separators are not tried. *)
Fixpoint find_boundary (text : str) (ss : list str) (search_start e : Z) : Z :=
  match ss with
  | [] => e
  | sep :: rest =>
      let idx := rfind text sep search_start e in
      if idx =? -1 then find_boundary text rest search_start e
      else idx + len sep
  end.

(** The value of [end] when the chunk is cut, for a window starting at
    [start]. *)
Definition window_end (text : str) (chunk_size start : Z) : Z :=
  let e := start + chunk_size in
  if e <? len text then
    find_boundary text seps (e - int_fifth chunk_size) e
  else e.

(** The loop variables. *)
Record loop_state := LoopState { start : Z; chunks : list str }.

Definition loop_cond (text : str) (st : loop_state) : bool :=
  start st <? len text.

(** One iteration of the [while] body. *)
Definition loop_body (text : str) (chunk_size chunk_overlap : Z)
    (st : loop_state) : loop_state :=
  let e := window_end text chunk_size (start st) in
  {| start := e - chunk_overlap;
     chunks := chunks st ++ [strip (slice text (start st) e)] |}.

Fixpoint run_loop (fuel : nat) (text : str) (chunk_size chunk_overlap : Z)
    (st : loop_state) : option loop_state :=
  match fuel with
  | O => None
  | S fuel' =>
      if loop_cond text st then
        run_loop fuel' text chunk_size chunk_overlap
          (loop_body text chunk_size chunk_overlap st)
      else Some st
  end.

(** [chunks = []; start = 0] *)
Definition init : loop_state := {| start := 0; chunks := [] |}.

Definition chunk_text (fuel : nat) (text : str)
    (chunk_size chunk_overlap : Z) : option (list str) :=
  if len text <=? chunk_size then Some [text]
  else chunks <$> run_loop fuel text chunk_size chunk_overlap init.

(** The loop state after at most [n] iterations (fewer when the loop
    condition fails earlier). *)
Fixpoint iterate (n : nat) (text : str) (chunk_size chunk_overlap : Z)
    (st : loop_state) : loop_state :=
  match n with
  | O => st
  | S n' =>
      if loop_cond text st then
        iterate n' text chunk_size chunk_overlap
          (loop_body text chunk_size chunk_overlap st)
      else st
  end.

(** The start offsets of the chunks cut by the first [n] iterations. *)
Fixpoint chunk_starts (n : nat) (text : str) (chunk_size chunk_overlap : Z)
    (st : loop_state) : list Z :=
  match n with
  | O => []
  | S n' =>
      if loop_cond text st then
        start st ::
          chunk_starts n' text chunk_size chunk_overlap
            (loop_body text chunk_size chunk_overlap st)
      else []
  end.

(** Strictly increasing sequence of offsets. *)
Fixpoint increasing (l : list Z) : Prop :=
  match l with
  | x :: ((y :: _) as l') => x < y /\ increasing l'
  | _ => True
  end.

End Chunker.

(** The cut point in the words of the specification: the sentence
    delimiter closest to the nominal end within the search window. *)
Module ChunkSpec.
Import Py.

(** A period, exclamation mark or question mark followed by whitespace,
    or a blank line, at offset [i]. *)
Definition sentence_delimiter_at (text : str) (i : Z) : bool :=
  (0 <=? i) &&
  match drop (Z.to_nat i) text with
  | c :: d :: _ =>
      ((Ascii.eqb c "." || Ascii.eqb c "!" || Ascii.eqb c "?") && isspace d)
      || (Ascii.eqb c Chunker.nl && Ascii.eqb d Chunker.nl)
  | _ => false
  end.

(** The delimiter closest to [lo + k], searching backward down to [lo]. *)
Fixpoint closest_delimiter (text : str) (lo : Z) (k : nat) : option Z :=
  match k with
  | O => None
  | S k' =>
      if sentence_delimiter_at text (lo + Z.of_nat k') then Some (lo + Z.of_nat k')
      else closest_delimiter text lo k'
  end.

(** Cut just after the closest delimiter lying in the last 20% of the
    window, otherwise exactly at [maxSize]. *)
Definition cut_point (text : str) (maxSize start : Z) : Z :=
  let e := start + maxSize in
  let lo := e - int_fifth maxSize in
  match closest_delimiter text lo (Z.to_nat (e - 2 - lo + 1)) with
  | Some i => i + 2
  | None => e
  end.
End ChunkSpec.

(** ** Exceptions and results *)

(** A Python exception, by what [str(e)] shows.  [RetryError] is the
    exception the retry decorator raises once it gives up; it wraps the
    exception of the last attempt. *)
Inductive exn :=
| Exception (msg : string)
| RetryError (last : exn).

Inductive result (A : Type) :=
| Ok (a : A)
| Raise (e : exn).
Arguments Ok {A} a.
Arguments Raise {A} e.

(** [str(e)].  For a [RetryError] Python shows the class name and, in
    brackets, the [repr] of the last attempt, a text of the form
    [<Future at 0x... state=finished raised ...>] that holds an address
    of the running process: [future_repr] supplies that text. *)
Definition str_of_exn (future_repr : exn -> string) (e : exn) : string :=
  match e with
  | Exception msg => msg
  | RetryError last => "RetryError[" ++ future_repr last ++ "]"
  end.

Definition is_ok {A} (r : result A) : bool :=
  match r with Ok _ => true | Raise _ => false end.

(** Values stored in the dict-shaped rows and results the worker passes
    around. *)
Inductive value :=
| VNone
| VStr (s : string)
| VText (t : Py.str)
| VInt (n : Z).

Abbreviation dict := (gmap string value).

(** ** [embeddings.py] *)

Module Embeddings.
Import Py.

Definition embedding := list Q.

(** The [input] argument of [client.embeddings.create]: one text or a
    list of texts. *)
Inductive embed_input :=
| One (text : str)
| Many (texts : list str).

(** What the calls made so far have done to the outside world: how many
    requests the provider has received and the waits slept between
    attempts, oldest first. *)
Record client_state := ClientState { calls : nat; sleeps : list Z }.

Definition tick (st : client_state) : client_state :=
  {| calls := S (calls st); sleeps := sleeps st |}.

Definition sleep (secs : Z) (st : client_state) : client_state :=
  {| calls := calls st; sleeps := sleeps st ++ [secs] |}.

(** [wait_exponential(multiplier, min, max)] of the retry library, as a
    function of the number of the attempt that just failed (from 1). *)
Definition wait_exponential (multiplier mn mx : Z) (attempt_number : Z) : Z :=
  Z.max (Z.max 0 mn) (Z.min (multiplier * 2 ^ (attempt_number - 1)) mx).

Section retry.
Context {A : Type}.
Variable wait : Z -> Z.
Variable body : client_state -> result A * client_state.

(** Attempt number [n]; [k] further attempts are allowed after it. *)
Fixpoint attempts (k : nat) (n : Z) (st : client_state)
    : result A * client_state :=
  let '(r, st1) := body st in
  match r with
  | Ok a => (Ok a, st1)
  | Raise e =>
      match k with
      | O => (Raise (RetryError e), st1)
      | S k' => attempts k' (n + 1) (sleep (wait n) st1)
      end
  end.

(** [@retry(stop=stop_after_attempt(m), wait=wait)] around [body]. *)
Definition retry (stop_after_attempt : nat) : client_state -> result A * client_state :=
  attempts (stop_after_attempt - 1) 1.
End retry.

Section provider.
(** The embedding provider behind the gateway: the response to the
    request numbered [n] (from 0) with the given input is either the
    embeddings of [response.data], in the order the provider lists
    them, or an exception. *)
Variable provider : nat -> embed_input -> result (list embedding).

(** The undecorated body of [generate_embedding]. *)
Definition generate_embedding_body (text : str) (st : client_state)
    : result embedding * client_state :=
  let max_chars := 30000 in
  let text := if max_chars <? len text then slice text 0 max_chars else text in
  match provider (calls st) (One text) with
  | Raise e => (Raise e, tick st)
  | Ok data =>
      match data with
      | d :: _ => (Ok d, tick st)
      | [] => (Raise (Exception "list index out of range"), tick st)
      end
  end.

Definition generate_embedding (text : str)
    : client_state -> result embedding * client_state :=
  retry (wait_exponential 1 2 10) (generate_embedding_body text) 3.

(** [range(0, stop, step)] *)
Definition py_range (stop step : Z) : result (list Z) :=
  if step =? 0 then Raise (Exception "range() arg 3 must not be zero")
  else if step <? 0 then Ok []
  else Ok (map (fun k => Z.of_nat k * step)
             (seq 0 (Z.to_nat ((stop + step - 1) / step)))).

(** The [for i in range(...)] loop of [generate_embeddings_batch]. *)
Fixpoint batch_loop (idxs : list Z) (texts : list str) (batch_size : Z)
    (embeddings : list embedding) (st : client_state)
    : result (list embedding) * client_state :=
  match idxs with
  | [] => (Ok embeddings, st)
  | i :: rest =>
      let batch := slice texts i (i + batch_size) in
      let batch := map (fun t => slice t 0 30000) batch in
      match provider (calls st) (Many batch) with
      | Raise e => (Raise e, tick st)
      | Ok batch_embeddings =>
          batch_loop rest texts batch_size
            (embeddings ++ batch_embeddings) (tick st)
      end
  end.

Definition generate_embeddings_batch (texts : list str) (batch_size : Z)
    (st : client_state) : result (list embedding) * client_state :=
  match py_range (Z.of_nat (List.length texts)) batch_size with
  | Raise e => (Raise e, st)
  | Ok idxs => batch_loop idxs texts batch_size [] st
  end.
End provider.

End Embeddings.

(** ** [database.py] *)

(** The two tables.  A row of [knowledge_base] has the columns the INSERT
    names and the [id] the engine assigns; a row of [job_status] is keyed
    by [celery_task_id], which the table holds at most once. *)
Module Schema.

Record kb_row := KbRow {
  id : Z;
  source_url : string;
  source_type : string;
  filename : string;
  content_markdown : Py.str;
  embedding : list Q;
  metadata : dict;
  char_count : Z
}.

Record job_row := JobRow {
  task_name : string;
  status : string;
  progress : option Z;
  input_data : dict;
  result_data : option dict;
  error_message : option string;
  started_at : option Z;
  completed_at : option Z
}.

(** The storage: both tables, the next [id] the engine hands out and the
    value of [NOW()]. *)
Record db := Db {
  knowledge_base : list kb_row;
  job_status : gmap string job_row;
  next_id : Z;
  now : Z
}.

End Schema.

Module Database.
Import Py.

(** [with get_db_session() as session: body]: the changes of [body] are
    committed when it returns and rolled back when it raises. *)
Definition get_db_session {A} (body : Schema.db -> result A * Schema.db)
    (d : Schema.db) : result A * Schema.db :=
  match body d with
  | (Ok a, d') => (Ok a, d')
  | (Raise e, _) => (Raise e, d)
  end.

(** A [double precision] value of the engine: a number, taken exactly,
    or NaN.  The infinities, which no distance takes, are left out; as a
    threshold an infinity acts like a number beyond every similarity. *)
Inductive float8 :=
| Num (q : Q)
| NaN.

(** The engine's ordering [a <= b]: NaN equals NaN and is greater than
    every number. *)
Definition float8_le (a b : float8) : bool :=
  match a, b with
  | Num x, Num y => Qle_bool x y
  | _, NaN => true
  | NaN, Num _ => false
  end.

(** [a > b] *)
Definition float8_gt (a b : float8) : bool := negb (float8_le a b).

(** [1 - x] *)
Definition one_minus (x : float8) : float8 :=
  match x with
  | Num q => Num (1 - q)
  | NaN => NaN
  end.

Section engine.
(** The storage engine may refuse a row (a vector of the wrong
    dimension, a lost connection): [None] when it accepts. *)
Variable insert_error : Schema.kb_row -> option exn.

(** The engine's distance operator [<=>]: a number, or NaN, which the
    cosine distance is when one of the two vectors is the zero vector. *)
Variable distance : list Q -> list Q -> float8.

Definition insert_document (source_url source_type filename : string)
    (content_markdown : str) (embedding : list Q) (metadata : option dict)
    : Schema.db -> result string * Schema.db :=
  get_db_session (fun d =>
    let row :=
      {| Schema.id := Schema.next_id d;
         Schema.source_url := source_url;
         Schema.source_type := source_type;
         Schema.filename := filename;
         Schema.content_markdown := content_markdown;
         Schema.embedding := embedding;
         Schema.metadata := default ∅ metadata;
         Schema.char_count := len content_markdown |} in
    match insert_error row with
    | Some e => (Raise e, d)
    | None =>
        (Ok (pretty (Schema.id row)),
         {| Schema.knowledge_base := Schema.knowledge_base d ++ [row];
            Schema.job_status := Schema.job_status d;
            Schema.next_id := Schema.next_id d + 1;
            Schema.now := Schema.now d |})
    end).

(** A row of the search result: the selected columns and
    [similarity = 1 - distance]. *)
Record search_row := SearchRow {
  sr_id : Z;
  sr_filename : string;
  sr_content_markdown : str;
  sr_metadata : dict;
  similarity : float8
}.

Definition select_row (query_embedding : list Q) (r : Schema.kb_row)
    : search_row :=
  {| sr_id := Schema.id r;
     sr_filename := Schema.filename r;
     sr_content_markdown := Schema.content_markdown r;
     sr_metadata := Schema.metadata r;
     similarity := one_minus (distance (Schema.embedding r) query_embedding) |}.

(** [ORDER BY key] ascending, as a stable insertion sort; NaN keys come
    last. *)
Fixpoint insert_by {A} (key : A -> float8) (x : A) (l : list A) : list A :=
  match l with
  | [] => [x]
  | y :: l' =>
      if float8_le (key x) (key y) then x :: l
      else y :: insert_by key x l'
  end.

Definition order_by {A} (key : A -> float8) (l : list A) : list A :=
  foldr (insert_by key) [] l.

(** The SELECT of [search_similar_documents]: WHERE, ORDER BY, LIMIT,
    then the selected columns.  A negative LIMIT is an error of the
    engine. *)
Definition search_similar_documents (query_embedding : list Q)
    (limit : Z) (threshold : float8) (d : Schema.db)
    : result (list search_row) :=
  if limit <? 0 then Raise (Exception "LIMIT must not be negative")
  else
    let dist r := distance (Schema.embedding r) query_embedding in
    let matching :=
      List.filter (fun r => float8_gt (one_minus (dist r)) threshold)
        (Schema.knowledge_base d) in
    Ok (map (select_row query_embedding)
          (take (Z.to_nat limit) (order_by dist matching))).
End engine.

(** The row an [UPDATE job_status SET ...] built by [update_job_status]
    leaves in place of [r]. *)
Definition updated_row (now : Z) (status : string) (progress : option Z)
    (result_data : option dict) (error_message : option string)
    (r : Schema.job_row) : Schema.job_row :=
  {| Schema.task_name := Schema.task_name r;
     Schema.status := status;
     Schema.progress :=
       match progress with Some p => Some p | None => Schema.progress r end;
     Schema.input_data := Schema.input_data r;
     Schema.result_data :=
       match result_data with
       | Some x => Some x
       | None => Schema.result_data r
       end;
     Schema.error_message :=
       match error_message with
       | Some m => Some m
       | None => Schema.error_message r
       end;
     Schema.started_at :=
       if String.eqb status "running" then Some now
       else Schema.started_at r;
     Schema.completed_at :=
       if String.eqb status "running" then Schema.completed_at r
       else if String.eqb status "success" || String.eqb status "failed"
       then Some now
       else Schema.completed_at r |}.

(** The storage once that UPDATE has been carried out: it rewrites the
    row of [celery_task_id], if there is one. *)
Definition job_updated (celery_task_id status : string)
    (progress : option Z) (result_data : option dict)
    (error_message : option string) (d : Schema.db) : Schema.db :=
  {| Schema.knowledge_base := Schema.knowledge_base d;
     Schema.job_status :=
       alter
         (updated_row (Schema.now d) status progress result_data error_message)
         celery_task_id (Schema.job_status d);
     Schema.next_id := Schema.next_id d;
     Schema.now := Schema.now d |}.

Section ledger.
(** The engine may refuse the UPDATE (a lost connection, a parameter it
    cannot store): [None] when it carries it out. *)
Variable update_error :
  Schema.db -> string -> string -> option Z -> option dict -> option string
  -> option exn.

Definition update_job_status (celery_task_id status : string)
    (progress : option Z) (result_data : option dict)
    (error_message : option string)
    : Schema.db -> result unit * Schema.db :=
  get_db_session (fun d =>
    match
      update_error d celery_task_id status progress result_data error_message
    with
    | Some e => (Raise e, d)
    | None =>
        (Ok tt,
         job_updated celery_task_id status progress result_data
           error_message d)
    end).
End ledger.

End Database.

(** The specification's words about a search result, read over the
    engine's values: a NaN is neither above nor below any value. *)
Module SearchSpec.
Import Database.

(** [s] is strictly greater than [threshold]. *)
Definition above (threshold s : float8) : Prop :=
  match threshold, s with
  | Num t, Num x => (t < x)%Q
  | _, _ => False
  end.

(** [b] is no greater than [a]. *)
Definition no_greater (b a : float8) : Prop :=
  match b, a with
  | Num y, Num x => (y <= x)%Q
  | _, _ => False
  end.

(** Only rows above the threshold, in order of non-increasing
    similarity, at most [limit] of them. *)
Definition sound (threshold : float8) (limit : Z) (rows : list search_row)
    : Prop :=
  Forall (fun r => above threshold (similarity r)) rows
  /\ StronglySorted (fun a b => no_greater (similarity b) (similarity a)) rows
  /\ Z.of_nat (List.length rows) <= limit.

End SearchSpec.

(** ** [tasks.py] *)

Module Tasks.
Import Py.

(** What [parse_document] returns. *)
Record parsed := Parsed {
  markdown : str;
  p_filename : string;
  p_source_type : string;
  p_metadata : dict
}.

(** The state a task runs against: the storage, the embedding client
    and the progress reports sent to the result backend, oldest first. *)
Record world := World {
  store : Schema.db;
  client : Embeddings.client_state;
  reported : list (Z * Z)
}.

Definition with_store (w : world) (d : Schema.db) : world :=
  {| store := d; client := client w; reported := reported w |}.

Definition with_client (w : world) (c : Embeddings.client_state) : world :=
  {| store := store w; client := c; reported := reported w |}.

(** [self.update_state(state='PROGRESS', meta={'current': current,
    'total': total})] *)
Definition update_state (current total : Z) (w : world) : world :=
  {| store := store w; client := client w;
     reported := reported w ++ [(current, total)] |}.

(** The storage once the statement at the head of [ingest_document]
    has been carried out:
    INSERT ... ON CONFLICT (celery_task_id) DO UPDATE SET status =
    'running', started_at = NOW().  The columns the INSERT leaves out
    are NULL in a fresh row. *)
Definition tracked (task_id : string) (source_url : string)
    (d : Schema.db) : Schema.db :=
  let input_data : dict := {[ "source_url" := VStr source_url ]} in
  let row :=
    match Schema.job_status d !! task_id with
    | Some r =>
        {| Schema.task_name := Schema.task_name r;
           Schema.status := "running";
           Schema.progress := Schema.progress r;
           Schema.input_data := Schema.input_data r;
           Schema.result_data := Schema.result_data r;
           Schema.error_message := Schema.error_message r;
           Schema.started_at := Some (Schema.now d);
           Schema.completed_at := Schema.completed_at r |}
    | None =>
        {| Schema.task_name := "ingest_document";
           Schema.status := "running";
           Schema.progress := None;
           Schema.input_data := input_data;
           Schema.result_data := None;
           Schema.error_message := None;
           Schema.started_at := None;
           Schema.completed_at := None |}
    end in
  {| Schema.knowledge_base := Schema.knowledge_base d;
     Schema.job_status := <[task_id := row]> (Schema.job_status d);
     Schema.next_id := Schema.next_id d;
     Schema.now := Schema.now d |}.

Section services.
(** The external collaborators: the document converter, the embedding
    provider, the storage engine's verdict on a row, on the statement
    that opens the job ([None] when it carries it out) and on an UPDATE
    of the job ledger, and the text Python shows for the last attempt of
    a [RetryError]. *)
Variable parse_document : string -> result parsed.
Variable provider : nat -> Embeddings.embed_input -> result (list Embeddings.embedding).
Variable insert_error : Schema.kb_row -> option exn.
Variable track_error : Schema.db -> string -> string -> option exn.
Variable update_error :
  Schema.db -> string -> string -> option Z -> option dict -> option string
  -> option exn.
Variable future_repr : exn -> string.

(** The job bookkeeping at the head of [ingest_document], in a session
    of its own. *)
Definition track_job (task_id : string) (source_url : string)
    : Schema.db -> result unit * Schema.db :=
  Database.get_db_session (fun d =>
    match track_error d task_id source_url with
    | Some e => (Raise e, d)
    | None => (Ok tt, tracked task_id source_url d)
    end).

(** The body of the [try] of [ingest_document]. *)
Definition ingest_steps (task_id source_url : string)
    (metadata : option dict) (w : world) : result dict * world :=
  (* Step 1: parse *)
  match parse_document source_url with
  | Raise e => (Raise e, w)
  | Ok doc =>
      let markdown := markdown doc in
      let filename := p_filename doc in
      let source_type := p_source_type doc in
      let doc_metadata := p_metadata doc in
      (* Step 2: embedding of the first 8000 characters *)
      let embed_text :=
        if 8000 <? len markdown then slice markdown 0 8000 else markdown in
      match Embeddings.generate_embedding provider embed_text (client w) with
      | (Raise e, c) => (Raise e, with_client w c)
      | (Ok embedding, c) =>
          let w := with_client w c in
          (* Step 3: store; the caller's keys win in the merge *)
          let final_metadata : dict := default ∅ metadata ∪ doc_metadata in
          match
            Database.insert_document insert_error source_url source_type
              filename markdown embedding (Some final_metadata) (store w)
          with
          | (Raise e, d) => (Raise e, with_store w d)
          | (Ok doc_id, d) =>
              let result : dict :=
                list_to_map
                  [ ("document_id", VStr doc_id);
                    ("filename", VStr filename);
                    ("source_type", VStr source_type);
                    ("char_count", VInt (len markdown));
                    ("status", VStr "success") ] in
              (* the ledger write is inside the [try] and comes after
                 the insert was committed *)
              match
                Database.update_job_status update_error task_id "success"
                  (Some 100) (Some result) None d
              with
              | (Raise e, d') => (Raise e, with_store w d')
              | (Ok _, d') => (Ok result, with_store w d')
              end
          end
      end
  end.

(** One run of the task body for the task [task_id]. *)
Definition ingest_document (task_id source_url : string)
    (metadata : option dict) (w : world) : result dict * world :=
  match track_job task_id source_url (store w) with
  | (Raise e, d) => (Raise e, with_store w d)
  | (Ok _, d) =>
      let w := with_store w d in
      match ingest_steps task_id source_url metadata w with
      | (Ok result, w') => (Ok result, w')
      | (Raise e, w') =>
          (* except Exception as e: record the failure, then re-raise;
             an exception of the ledger write takes the place of [e] *)
          match
            Database.update_job_status update_error task_id "failed" None
              None (Some (str_of_exn future_repr e)) (store w')
          with
          | (Raise e', d') => (Raise e', with_store w' d')
          | (Ok _, d') => (Raise e, with_store w' d')
          end
      end
  end.

(** The task is declared with [autoretry_for=(Exception,)] and
    [max_retries=3]: applied in place, a run that raises is run again
    under the same identifier while retries are left, and the exception
    of the last run is the one raised. *)
Fixpoint run_task (retries_left : nat) (task_id url : string)
    (metadata : option dict) (w : world) : result dict * world :=
  match ingest_document task_id url metadata w with
  | (Ok result, w') => (Ok result, w')
  | (Raise e, w') =>
      match retries_left with
      | O => (Raise e, w')
      | S k => run_task k task_id url metadata w'
      end
  end.

(** [ingest_document.apply(args=[url, metadata]).get(timeout=600)]: the
    task run in place under an identifier [uuid] draws for it. *)
Variable uuid : world -> string.

Definition apply_ingest_document (url : string) (metadata : option dict)
    (w : world) : result dict * world :=
  run_task 3 (uuid w) url metadata w.
End services.

(** The summary [ingest_batch] returns. *)
Record batch_result := BatchResult {
  total : Z;
  success : Z;
  failed : Z;
  documents : list dict
}.

(** The entry appended for an item whose ingestion raised. *)
Definition failure_entry (future_repr : exn -> string) (url : string) (e : exn)
    : dict :=
  list_to_map
    [ ("source_url", VStr url);
      ("status", VStr "failed");
      ("error", VStr (str_of_exn future_repr e)) ].

Section batch.
(** [ingest_batch] runs over any state [W]: [apply_ingest] is
    [ingest_document.apply(args=[url, metadata]).get(timeout=600)], the
    synchronous application of the ingestion task, and [report] the
    progress report [self.update_state(state='PROGRESS', ...)]. *)
Context {W : Type}.
Variable future_repr : exn -> string.
Variable apply_ingest : string -> option dict -> W -> result dict * W.
Variable report : Z -> Z -> W -> W.

(** The [for i, url in enumerate(source_urls)] loop from index [i]. *)
Fixpoint ingest_loop (urls : list string) (i : Z) (n : Z)
    (metadata : option dict) (results : batch_result) (w : W)
    : batch_result * W :=
  match urls with
  | [] => (results, w)
  | url :: rest =>
      let '(r, w1) := apply_ingest url metadata w in
      let results1 :=
        match r with
        | Ok result =>
            {| total := total results;
               success := success results + 1;
               failed := failed results;
               documents := documents results ++ [result] |}
        | Raise e =>
            {| total := total results;
               success := success results;
               failed := failed results + 1;
               documents := documents results ++ [failure_entry future_repr url e] |}
        end in
      ingest_loop rest (i + 1) n metadata results1
        (report (i + 1) n w1)
  end.

Definition ingest_batch (source_urls : list string)
    (metadata : option dict) (w : W) : batch_result * W :=
  let n := Z.of_nat (List.length source_urls) in
  ingest_loop source_urls 0 n metadata
    {| total := n; success := 0; failed := 0; documents := [] |} w.

(** What each item's ingestion returned or raised, in the order the
    loop ran them. *)
Fixpoint outcomes (urls : list string) (i : Z) (n : Z)
    (metadata : option dict) (w : W) : list (result dict) :=
  match urls with
  | [] => []
  | url :: rest =>
      let '(r, w1) := apply_ingest url metadata w in
      r :: outcomes rest (i + 1) n metadata (report (i + 1) n w1)
  end.

(** The entry of [documents] for an item, from its outcome. *)
Definition entry_of (url : string) (r : result dict) : dict :=
  match r with
  | Ok result => result
  | Raise e => failure_entry future_repr url e
  end.
End batch.

End Tasks.

(** ** [tasks.py]: search and question answering *)

Module Queries.
Import Py Tasks.

(** An entry of the [sources] list of an answer. *)
Record source := Source {
  src_id : string;
  src_filename : string;
  src_similarity : Database.float8
}.

(** A chat message. *)
Record message := Message { role : string; content : str }.

(** What [rag_query] returns. *)
Record answer := Answer {
  question : str;
  answer_text : str;
  sources : list source;
  model : string;
  tokens : Z
}.

Definition dq : ascii := ascii_of_nat 34.

(** [sep.join(parts)] *)
Fixpoint join (sep : str) (parts : list str) : str :=
  match parts with
  | [] => []
  | [p] => p
  | p :: rest => p ++ sep ++ join sep rest
  end.

(** The separator between passages, ["\n\n---\n\n"]. *)
Definition separator : str :=
  [Chunker.nl; Chunker.nl] ++ lit "---" ++ [Chunker.nl; Chunker.nl].

Definition default_system : str :=
  lit "You are a helpful assistant that answers questions based on provided context."
  ++ [Chunker.nl; Chunker.nl] ++ lit "Rules:" ++ [Chunker.nl]
  ++ lit "- Only answer based on the context provided" ++ [Chunker.nl]
  ++ lit "- If the context doesn't contain the answer, say " ++ [dq]
  ++ lit "I don't have enough information to answer that question." ++ [dq]
  ++ [Chunker.nl]
  ++ lit "- Cite your sources by mentioning the document names" ++ [Chunker.nl]
  ++ lit "- Be concise but thorough".

(** The passages of the context block: the first 2000 characters of each
    retrieved document, in rank order. *)
Definition context_parts (search_results : list Database.search_row) : list str :=
  map (fun doc => slice (Database.sr_content_markdown doc) 0 2000) search_results.

Definition sources_of (search_results : list Database.search_row) : list source :=
  map (fun doc => {| src_id := pretty (Database.sr_id doc);
                     src_filename := Database.sr_filename doc;
                     src_similarity := Database.similarity doc |})
    search_results.

Definition context_of (search_results : list Database.search_row) : str :=
  join separator (context_parts search_results).

(** The two messages sent to the completion provider;
    [system_prompt or default_system] falls back to the default for
    [None] and for the empty string. *)
Definition messages_for (system_prompt : option str) (context question : str)
    : list message :=
  [ {| role := "system";
       content := match system_prompt with
                  | Some (c :: p) => c :: p
                  | _ => default_system
                  end |};
    {| role := "user";
       content := lit "Context:" ++ [Chunker.nl] ++ context
                  ++ [Chunker.nl; Chunker.nl] ++ lit "Question: " ++ question
                  ++ [Chunker.nl; Chunker.nl] ++ lit "Answer:" |} ].

Section services.
Variable provider : nat -> Embeddings.embed_input -> result (list Embeddings.embedding).
Variable distance : list Q -> list Q -> Database.float8.

(** The completion provider: for a model and the messages, the text of
    the first choice and the total token usage, or an exception. *)
Variable completion : string -> list message -> result (str * Z).

Definition semantic_search (query : str) (limit : Z)
    (threshold : Database.float8) (w : world) : result (list Database.search_row) * world :=
  match Embeddings.generate_embedding provider query (client w) with
  | (Raise e, c) => (Raise e, with_client w c)
  | (Ok query_embedding, c) =>
      (Database.search_similar_documents distance query_embedding limit
         threshold (store w),
       with_client w c)
  end.

(** [rag_query]; [semantic_search.apply(args=[question, 5, 0.6]).get()]
    is one run of [semantic_search] in place. *)
Definition rag_query (question : str) (session_id : option string)
    (model : string) (system_prompt : option str) (w : world)
    : result answer * world :=
  match semantic_search question 5 (Database.Num (3 # 5)) w with
  | (Raise e, w1) => (Raise e, w1)
  | (Ok search_results, w1) =>
      let sources := sources_of search_results in
      let context := context_of search_results in
      let messages := messages_for system_prompt context question in
      match completion model messages with
      | Raise e => (Raise e, w1)
      | Ok (answer, total_tokens) =>
          (Ok {| question := question;
                 answer_text := answer;
                 sources := sources;
                 model := model;
                 tokens := total_tokens |},
           w1)
      end
  end.
End services.

End Queries.

(** ** [docling_parser.py]: download and parsing *)

Module Parser.
Import Py.

(** [Path(name).suffix] for a name without a slash: the part from the
    last dot on, unless that dot is the first or the last character. *)
Definition path_suffix (name : str) : str :=
  let i := rfind name ["."%char] 0 (len name) in
  if (0 <? i) && (i <? len name - 1) then slice name i (len name) else [].

(** [c.lower()] on the code points below 256. *)
Definition lower_char (c : ascii) : ascii :=
  let n := nat_of_ascii c in
  if ((65 <=? n) && (n <=? 90))%nat
     || ((192 <=? n) && (n <=? 222) && negb (n =? 215))%nat
  then ascii_of_nat (n + 32) else c.

Definition lower (t : str) : str := map lower_char t.

(** [t.lstrip('.')] *)
Fixpoint lstrip_dots (t : str) : str :=
  match t with
  | [] => []
  | c :: t' => if Ascii.eqb c "." then lstrip_dots t' else t
  end.

(** The source type [parse_document] derives from a file name. *)
Definition source_type_of (filename : str) : str :=
  let suffix := lstrip_dots (lower (path_suffix filename)) in
  match suffix with
  | [] => lit "unknown"
  | _ => suffix
  end.

(** ['.' in t] *)
Definition has_dot (t : str) : bool := existsb (Ascii.eqb ".") t.

(** [t.split(';')[0]] *)
Fixpoint before_semicolon (t : str) : str :=
  match t with
  | [] => []
  | c :: t' => if Ascii.eqb c ";" then [] else c :: before_semicolon t'
  end.

(** [ext_map.get(content_type, '.pdf')] *)
Definition ext_for (content_type : str) : str :=
  if decide (content_type = lit "application/pdf") then lit ".pdf"
  else if decide (content_type
                  = lit "application/vnd.openxmlformats-officedocument.wordprocessingml.document")
  then lit ".docx"
  else if decide (content_type = lit "text/html") then lit ".html"
  else lit ".pdf".

(** The file name [download_file] settles on, from the name in the URL
    and the response's content type. *)
Definition detected_filename (url_name : str) (content_type : option str) : str :=
  let filename := match url_name with [] => lit "document" | _ => url_name end in
  if negb (has_dot filename) then
    filename ++ ext_for (before_semicolon (default [] content_type))
  else filename.

(** A successful HTTP response: its [content-type] header, if any. *)
Record response := Response { content_type : option str }.

(** What the converter extracts from a file. *)
Record conversion := Conversion {
  c_markdown : str;
  c_title : value;
  c_num_pages : value;
  c_tables_count : value
}.

Section services.
(** The outside world of the parser: [url_name] is
    [Path(urlparse(url).path).name], [path_name] is [Path(source).name],
    [http_get] the download (raising for a failed request or an error
    status), [mktemp] the name the temporary file gets among the existing
    files, [write_error] the exception, if any, that writing the
    downloaded content to that file raises, and [convert] the document
    converter. *)
Variable url_name : string -> str.
Variable path_name : string -> str.
Variable http_get : string -> result response.
Variable mktemp : gset string -> str -> string.
Variable write_error : string -> option exn.
Variable convert : string -> result conversion.

(** [download_file]; the state is the set of existing files.  The
    temporary file is created with [delete=False]: it exists from then
    on, also when the write into it raises. *)
Definition download_file (url : string) (fs : gset string)
    : result (string * str) * gset string :=
  match http_get url with
  | Raise e => (Raise e, fs)
  | Ok resp =>
      let filename := detected_filename (url_name url) (content_type resp) in
      let suffix := path_suffix filename in
      let tmp := mktemp fs suffix in
      match write_error tmp with
      | Some e => (Raise e, fs ∪ {[tmp]})
      | None => (Ok (tmp, filename), fs ∪ {[tmp]})
      end
  end.

(** The [try] block of [parse_document]. *)
Definition convert_document (local_path : string) (filename : str)
    : result Tasks.parsed :=
  match convert local_path with
  | Raise e => Raise e
  | Ok doc =>
      Ok {| Tasks.markdown := c_markdown doc;
            Tasks.p_filename := string_of_list_ascii filename;
            Tasks.p_source_type := string_of_list_ascii (source_type_of filename);
            Tasks.p_metadata :=
              list_to_map [ ("title"%string, c_title doc);
                            ("num_pages"%string, c_num_pages doc);
                            ("tables_count"%string, c_tables_count doc) ] |}
  end.

Definition is_url (source : string) : bool :=
  String.prefix "http://" source || String.prefix "https://" source.

Definition parse_document (source : string) (fs : gset string)
    : result Tasks.parsed * gset string :=
  if is_url source then
    (* the download comes before the [try] *)
    match download_file source fs with
    | (Raise e, fs1) => (Raise e, fs1)
    | (Ok (local_path, filename), fs1) =>
        (* try ... finally: the downloaded file is removed *)
        (convert_document local_path filename,
         if decide (local_path ∈ fs1) then fs1 ∖ {[local_path]} else fs1)
    end
  else
    (convert_document source (path_name source), fs).
End services.

End Parser.

(** ** Auxiliary definitions used in the statements *)

Module Aux.
Import Py Embeddings Tasks.

(** The text a single-embedding request carries: the input cut to 30000
    characters. *)
Definition sent (text : str) : str :=
  if 30000 <? len text then slice text 0 30000 else text.

(** The text whose embedding summarises a document: its first 8000
    characters. *)
Definition summary_text (markdown : str) : str :=
  if 8000 <? len markdown then slice markdown 0 8000 else markdown.

(** Ascending order of a key, in the engine's ordering. *)
Definition by_key {A} (key : A -> Database.float8) (x y : A) : Prop :=
  Database.float8_le (key x) (key y) = true.

(** How many items of a batch returned, and how many raised. *)
Definition count_ok (outs : list (result dict)) : Z :=
  Z.of_nat (List.length (List.filter is_ok outs)).

Definition count_raised (outs : list (result dict)) : Z :=
  Z.of_nat (List.length (List.filter (fun r => negb (is_ok r)) outs)).

(** A text with no whitespace at either end. *)
Definition trimmed (t : str) : Prop :=
  (forall c rest, t = c :: rest -> isspace c = false)
  /\ (forall c front, t = front ++ [c] -> isspace c = false).

(** The characters a separator of the chunker can start with. *)
Definition sentence_mark (c : ascii) : bool :=
  Ascii.eqb c "." || Ascii.eqb c "!" || Ascii.eqb c "?" || Ascii.eqb c Chunker.nl.

(** The start offsets [0, step, 2 * step, ...]. *)
Definition arithmetic (step : Z) (n : nat) : list Z :=
  map (fun k => Z.of_nat k * step) (seq 0 n).

(** What one attempt of [generate_embedding] yields when it is the
    request numbered [n]: the first embedding of the response, or the
    exception raised. *)
Definition attempt_result
    (provider : nat -> Embeddings.embed_input -> result (list Embeddings.embedding))
    (text : str) (n : nat) : result Embeddings.embedding :=
  match provider n (Embeddings.One (sent text)) with
  | Raise e => Raise e
  | Ok [] => Raise (Exception "list index out of range")
  | Ok (d :: _) => Ok d
  end.

(** The rows of the knowledge base that pass the WHERE clause of the
    search. *)
Definition matching (distance : list Q -> list Q -> Database.float8)
    (query_embedding : list Q) (threshold : Database.float8) (d : Schema.db)
    : list Schema.kb_row :=
  List.filter
    (fun r => Database.float8_gt
                (Database.one_minus
                   (distance (Schema.embedding r) query_embedding))
                threshold)
    (Schema.knowledge_base d).

(** Every stored document carries the length of its content. *)
Definition counts_characters (d : Schema.db) : Prop :=
  Forall (fun r => Schema.char_count r = len (Schema.content_markdown r))
    (Schema.knowledge_base d).

(** The result [ingest_document] returns for a parsed document stored
    under [doc_id]. *)
Definition ingest_result (doc : parsed) (doc_id : string) : dict :=
  list_to_map
    [ ("document_id"%string, VStr doc_id);
      ("filename"%string, VStr (p_filename doc));
      ("source_type"%string, VStr (p_source_type doc));
      ("char_count"%string, VInt (len (markdown doc)));
      ("status"%string, VStr "success") ].

(** The row [ingest_document] stores for a parsed document. *)
Definition ingest_row (source_url : string) (metadata : option dict)
    (doc : parsed) (emb : list Q) (row_id : Z) : Schema.kb_row :=
  {| Schema.id := row_id;
     Schema.source_url := source_url;
     Schema.source_type := p_source_type doc;
     Schema.filename := p_filename doc;
     Schema.content_markdown := markdown doc;
     Schema.embedding := emb;
     Schema.metadata := default ∅ metadata ∪ p_metadata doc;
     Schema.char_count := len (markdown doc) |}.

(** The storage after the row [row] was added. *)
Definition with_row (d : Schema.db) (row : Schema.kb_row) : Schema.db :=
  {| Schema.knowledge_base := Schema.knowledge_base d ++ [row];
     Schema.job_status := Schema.job_status d;
     Schema.next_id := Schema.next_id d + 1;
     Schema.now := Schema.now d |}.

(** The storage after the ledger write that closes a run of
    [ingest_document] has been carried out. *)
Definition mark_failed (future_repr : exn -> string) (task_id : string)
    (e : exn) (d : Schema.db) : Schema.db :=
  Database.job_updated task_id "failed" None None
    (Some (str_of_exn future_repr e)) d.

Definition mark_success (task_id : string) (result : dict) (d : Schema.db)
    : Schema.db :=
  Database.job_updated task_id "success" (Some 100) (Some result) None d.

(** A world from its parts. *)
Definition world_of (d : Schema.db) (c : Embeddings.client_state)
    (w : world) : world :=
  {| store := d; client := c; reported := reported w |}.

(** The [except] handler of [ingest_document] for the exception [e],
    met with the storage [d] and the client [c]: the failure is
    recorded and [e] raised again, unless the ledger refuses the UPDATE
    and its exception is raised instead. *)
Definition handled
    (update_error : Schema.db -> string -> string -> option Z -> option dict
                    -> option string -> option exn)
    (future_repr : exn -> string) (task_id : string) (e : exn)
    (d : Schema.db) (c : Embeddings.client_state) (w : world)
    : result dict * world :=
  match
    update_error d task_id "failed"%string None None
      (Some (str_of_exn future_repr e))
  with
  | Some e' => (Raise e', world_of d c w)
  | None => (Raise e, world_of (mark_failed future_repr task_id e d) c w)
  end.

(** No UPDATE of the job ledger is refused. *)
Definition never_refuses
    (update_error : Schema.db -> string -> string -> option Z -> option dict
                    -> option string -> option exn) : Prop :=
  forall d task_id status progress result_data error_message,
    update_error d task_id status progress result_data error_message = None.

(** The progress reports [(i + 1, n)], ..., [(i + k, n)]. *)
Definition reports (i n : Z) (k : nat) : list (Z * Z) :=
  map (fun j => (i + 1 + Z.of_nat j, n)) (seq 0 k).

End Aux.

(** ** Concrete inputs *)

Module Samples.
Import Py Chunker Embeddings Database Tasks.

(** A text of 21 characters whose only sentence end, ". ", sits at
    offsets 12-13. *)
Definition stalling_text : str := lit "aaaaaaaaaaaa. bbbbbbb".

(** Two sentence ends inside the search window of the first chunk:
    ". " at offset 16 and "! " at offset 18. *)
Definition two_delimiters : str := lit "aaaaaaaaaaaaaaaa. ! bbbbbbbb".

(** The text chunked by the worker's own test. *)
Definition sample_text : str :=
  lit "This is a test. This is another sentence. This is a third sentence to test chunking.".

(** A provider whose first request fails and whose later requests
    succeed. *)
Definition flaky_provider (n : nat) (input : embed_input)
    : result (list embedding) :=
  match n with
  | O => Raise (Exception "provider unavailable")
  | S _ =>
      match input with
      | One _ => Ok [[1%Q]]
      | Many texts => Ok (map (fun _ => [1%Q]) texts)
      end
  end.

Definition fresh_client : client_state := {| calls := 0; sleeps := [] |}.

(** A provider that embeds every text as its length. *)
Definition length_embedding (t : str) : embedding := [inject_Z (len t)].

Definition length_provider (n : nat) (input : embed_input)
    : result (list embedding) :=
  match input with
  | One t => Ok [length_embedding t]
  | Many ts => Ok (map length_embedding ts)
  end.

Definition three_texts : list str := [lit "a"; lit "bb"; lit "ccc"].

(** A ledger holding one running job. *)
Definition running_job : Schema.job_row :=
  {| Schema.task_name := "ingest_document";
     Schema.status := "running";
     Schema.progress := None;
     Schema.input_data := {[ "source_url" := VStr "https://x/doc.pdf" ]};
     Schema.result_data := None;
     Schema.error_message := None;
     Schema.started_at := Some 5;
     Schema.completed_at := None |}.

Definition one_job_db : Schema.db :=
  {| Schema.knowledge_base := [];
     Schema.job_status := {[ "task-1" := running_job ]};
     Schema.next_id := 1;
     Schema.now := 7 |}.

(** A converter that fails on one URL, with a provider and an engine
    that always succeed. *)
Definition sample_parse (url : string) : result parsed :=
  if String.eqb url "https://x/bad.pdf" then Raise (Exception "download failed")
  else Ok {| markdown := lit "Some text."; p_filename := "doc.pdf";
             p_source_type := "pdf"; p_metadata := ∅ |}.

Definition sample_uuid (w : world) : string :=
  pretty (List.length (reported w)).

(** A job ledger that carries out every statement, and one that
    refuses the UPDATE recording a success. *)
Definition no_track_error (d : Schema.db) (task_id source_url : string)
    : option exn := None.

Definition no_update_error (d : Schema.db) (task_id status : string)
    (progress : option Z) (result_data : option dict)
    (error_message : option string) : option exn := None.

Definition success_refused (d : Schema.db) (task_id status : string)
    (progress : option Z) (result_data : option dict)
    (error_message : option string) : option exn :=
  if String.eqb status "success" then Some (Exception "connection lost")
  else None.

Definition sample_future_repr (last : exn) : string :=
  "<Future at 0x7f3a5c0d2e90 state=finished raised Exception>".

Definition sample_world : world :=
  {| store := {| Schema.knowledge_base := []; Schema.job_status := ∅;
                 Schema.next_id := 1; Schema.now := 0 |};
     client := fresh_client;
     reported := [] |}.

Definition sample_apply : string -> option dict -> world -> result dict * world :=
  apply_ingest_document sample_parse length_provider (fun _ => None)
    no_track_error no_update_error sample_future_repr sample_uuid.

Definition sample_urls : list string :=
  ["https://x/a.pdf"; "https://x/bad.pdf"; "https://x/c.pdf"]%string.

(** A text without any sentence mark. *)
Definition plain_text : str := lit "abcdefghijklmnopqrstuvwxyz".

(** A provider that always fails. *)
Definition failing_provider (n : nat) (input : embed_input)
    : result (list embedding) :=
  Raise (Exception "provider unavailable").

(** A provider whose second request fails. *)
Definition second_fails (n : nat) (input : embed_input)
    : result (list embedding) :=
  match n with
  | 1%nat => Raise (Exception "provider unavailable")
  | _ => length_provider n input
  end.

(** Two texts of 30001 characters that differ in the last one only. *)
Definition long_text (c : ascii) : str :=
  repeat "a"%char (Z.to_nat 30000) ++ [c].

(** A distance for the examples: NaN for a stored zero vector, as the
    cosine distance is, and otherwise the stored vector's only
    coordinate. *)
Definition sample_distance (stored query : list Q) : float8 :=
  if forallb (Qeq_bool 0) stored then NaN
  else
    match stored with
    | [x] => Num x
    | _ => Num 1
    end.

Definition sample_row (row_id : Z) (dist : Q) : Schema.kb_row :=
  {| Schema.id := row_id;
     Schema.source_url := "https://x/doc.pdf";
     Schema.source_type := "pdf";
     Schema.filename := "doc.pdf";
     Schema.content_markdown := lit "Some text.";
     Schema.embedding := [dist];
     Schema.metadata := ∅;
     Schema.char_count := 10 |}.

(** Three documents at distances 0.1, 0.2 and 0.9 from any query. *)
Definition three_documents : Schema.db :=
  {| Schema.knowledge_base :=
       [sample_row 1 (1 # 10); sample_row 2 (2 # 10); sample_row 3 (9 # 10)];
     Schema.job_status := ∅;
     Schema.next_id := 4;
     Schema.now := 0 |}.

Definition library_world : world :=
  {| store := three_documents; client := fresh_client; reported := [] |}.

(** A document at distance 0.1 and one stored with the zero vector. *)
Definition zero_vector_library : Schema.db :=
  {| Schema.knowledge_base := [sample_row 1 (1 # 10); sample_row 2 0];
     Schema.job_status := ∅;
     Schema.next_id := 3;
     Schema.now := 0 |}.

Definition zero_vector_world : world :=
  {| store := zero_vector_library; client := fresh_client; reported := [] |}.


(** A world in which the task "task-1" has failed before. *)
Definition failed_job : Schema.job_row :=
  {| Schema.task_name := "ingest_document";
     Schema.status := "failed";
     Schema.progress := None;
     Schema.input_data := {[ "source_url" := VStr "https://x/a.pdf" ]};
     Schema.result_data := None;
     Schema.error_message := Some "download failed"%string;
     Schema.started_at := Some 5;
     Schema.completed_at := Some 6 |}.

Definition retry_world : world :=
  {| store := {| Schema.knowledge_base := [];
                 Schema.job_status := {[ "task-1" := failed_job ]};
                 Schema.next_id := 1; Schema.now := 9 |};
     client := fresh_client;
     reported := [] |}.

(** A converter that supplies metadata of its own. *)
Definition titled_parse (url : string) : result parsed :=
  Ok {| markdown := lit "Some text."; p_filename := "doc.pdf";
        p_source_type := "pdf";
        p_metadata := {[ "title" := VStr "From the file" ]} |}.

Definition caller_metadata : dict := {[ "title" := VStr "From the caller" ]}.

Definition sample_completion (model : string) (messages : list Queries.message)
    : result (str * Z) :=
  Ok (lit "An answer.", 42).

Definition sample_mktemp (fs : gset string) (suffix : str) : string :=
  "/tmp/tmp0001".

Definition sample_http (url : string) : result Parser.response :=
  Ok {| Parser.content_type := Some (lit "text/html; charset=utf-8") |}.

(** A disk on which no write fails, and a full one. *)
Definition no_write_error (path : string) : option exn := None.

Definition disk_full (path : string) : option exn :=
  Some (Exception "No space left on device").

Definition sample_convert (path : string) : result Parser.conversion :=
  Ok {| Parser.c_markdown := lit "Some text."; Parser.c_title := VNone;
        Parser.c_num_pages := VInt 1; Parser.c_tables_count := VInt 0 |}.

End Samples.

(** * Properties *)

(** ** Slices and [rfind] *)

Section py_facts.
Import Py Aux Samples.

Lemma len_nonneg (t : str) : 0 <= len t.
Proof. unfold len. lia. Qed.

Lemma slice_length_le {A} (t : list A) (a b : Z) :
  Z.of_nat (List.length (slice t a b))
  <= Z.max 0 (adjust_index (Z.of_nat (List.length t)) b
              - adjust_index (Z.of_nat (List.length t)) a).
Proof.
  unfold slice. cbv zeta. rewrite length_take. lia.
Qed.

Lemma lstrip_length (t : str) : (List.length (lstrip t) <= List.length t)%nat.
Proof.
  induction t as [|c t IH]; simpl; [lia|].
  destruct (isspace c); simpl; lia.
Qed.

Lemma strip_length (t : str) : len (strip t) <= len t.
Proof.
  unfold len, strip, rstrip.
  rewrite length_rev.
  pose proof (lstrip_length (rev (lstrip t))) as H1.
  rewrite length_rev in H1.
  pose proof (lstrip_length t). lia.
Qed.

(** [rscan] returns the highest candidate where [sub] occurs. *)
Lemma rscan_found (t sub : str) (lo : Z) (k : nat) :
  0 <= lo ->
  rscan t sub lo k <> -1 ->
  lo <= rscan t sub lo k < lo + Z.of_nat k
  /\ occurs_at t sub (rscan t sub lo k) = true
  /\ forall j, rscan t sub lo k < j < lo + Z.of_nat k ->
               occurs_at t sub j = false.
Proof.
  intros Hlo. induction k as [|k IH]; simpl rscan; [congruence|].
  destruct (occurs_at t sub (lo + Z.of_nat k)) eqn:Hocc.
  - intros _. split; [lia|]. split; [assumption|]. intros j Hj. lia.
  - intros Hne. destruct (IH Hne) as (Hr & Ho & Hmax).
    split; [lia|]. split; [assumption|].
    intros j Hj.
    destruct (Z.eq_dec j (lo + Z.of_nat k)) as [->|Hjk]; [assumption|].
    apply Hmax. lia.
Qed.

Lemma rscan_none (t sub : str) (lo : Z) (k : nat) :
  rscan t sub lo k = -1 ->
  0 <= lo ->
  forall j, lo <= j < lo + Z.of_nat k -> occurs_at t sub j = false.
Proof.
  intros Hr Hlo. induction k as [|k IH]; intros j Hj; [lia|].
  simpl rscan in Hr.
  destruct (occurs_at t sub (lo + Z.of_nat k)) eqn:Hocc; [lia|].
  destruct (Z.eq_dec j (lo + Z.of_nat k)) as [->|Hjk]; [assumption|].
  apply IH; [assumption|lia].
Qed.

Lemma rfind_lo_nonneg (t : str) (a : Z) : 0 <= rfind_lo t a.
Proof. unfold rfind_lo. destruct (Z.ltb_spec a 0); lia. Qed.

Lemma rfind_found (t sub : str) (a b : Z) :
  rfind t sub a b <> -1 ->
  rfind_lo t a <= rfind t sub a b
  /\ rfind t sub a b + len sub <= rfind_hi t b
  /\ occurs_at t sub (rfind t sub a b) = true
  /\ forall j, rfind t sub a b < j -> j + len sub <= rfind_hi t b ->
               occurs_at t sub j = false.
Proof.
  unfold rfind. cbv zeta. fold (rfind_lo t a). fold (rfind_hi t b).
  intros Hne.
  destruct (rscan_found _ _ _ _ (rfind_lo_nonneg t a) Hne) as (Hr & Ho & Hmax).
  split; [lia|]. split; [lia|]. split; [assumption|].
  intros j Hj Hjb. apply Hmax. lia.
Qed.

Lemma rfind_none (t sub : str) (a b : Z) :
  rfind t sub a b = -1 ->
  forall j, rfind_lo t a <= j -> j + len sub <= rfind_hi t b ->
            occurs_at t sub j = false.
Proof.
  unfold rfind. cbv zeta. fold (rfind_lo t a). fold (rfind_hi t b).
  intros Hr j Hj Hjb.
  eapply rscan_none; [exact Hr|apply rfind_lo_nonneg|lia].
Qed.

End py_facts.

(** ** The chunker *)


Section chunker_facts.
Import Py Chunker Aux Samples.

Lemma find_boundary_cases (text : str) (ss : list str) (lo e : Z) :
  (find_boundary text ss lo e = e
   /\ forall sep, sep ∈ ss -> rfind text sep lo e = -1)
  \/ exists pre sep post,
       ss = pre ++ sep :: post
       /\ (forall p, p ∈ pre -> rfind text p lo e = -1)
       /\ rfind text sep lo e <> -1
       /\ find_boundary text ss lo e = rfind text sep lo e + len sep.
Proof.
  induction ss as [|sep ss IH]; simpl find_boundary.
  - left. split; [reflexivity|]. intros sep Hin. inversion Hin.
  - destruct (Z.eqb_spec (rfind text sep lo e) (-1)) as [Heq|Hne].
    + destruct IH as [[Hfb Hall]|(pre & s & post & Hss & Hpre & Hs & Hfb)].
      * left. split; [assumption|].
        intros s Hin. apply elem_of_cons in Hin as [->|Hin]; auto.
      * right. exists (sep :: pre), s, post.
        split; [simpl; congruence|]. split; [|split; assumption].
        intros p Hin. apply elem_of_cons in Hin as [->|Hin]; auto.
    + right. exists [], sep, ss.
      split; [reflexivity|]. split; [|split; [assumption|reflexivity]].
      intros p Hin. inversion Hin.
Qed.

Lemma seps_len (sep : str) : sep ∈ seps -> len sep = 2.
Proof.
  unfold seps. intros Hin.
  repeat (apply elem_of_cons in Hin as [->|Hin]; [reflexivity|]).
  inversion Hin.
Qed.

Lemma int_fifth_bounds (n : Z) : 0 <= n -> 0 <= int_fifth n <= n.
Proof.
  intros Hn. unfold int_fifth. split.
  - apply Z.quot_pos; lia.
  - rewrite Z.quot_div_nonneg by lia.
    apply Z.div_le_upper_bound; lia.
Qed.

(** The end of a window never lies beyond its nominal end, in the sense
    that the text cut out has at most [chunk_size] characters. *)
Lemma window_slice_bound (text : str) (chunk_size s : Z) :
  0 <= chunk_size ->
  len (slice text s (window_end text chunk_size s)) <= chunk_size.
Proof.
  intros Hcs.
  pose proof (len_nonneg text) as Hn.
  assert (Hb : forall e',
    (e' = s + chunk_size
     \/ (s + chunk_size < len text /\ 0 <= e'
         /\ e' <= rfind_hi text (s + chunk_size))) ->
    len (slice text s e') <= chunk_size).
  { intros e' He'. unfold len at 1.
    etransitivity; [apply slice_length_le|].
    fold (len text). unfold adjust_index, rfind_hi in *.
    repeat match goal with
           | |- context [?a <? ?b] => destruct (Z.ltb_spec a b)
           | H : context [?a <? ?b] |- _ => destruct (Z.ltb_spec a b)
           end; lia. }
  apply Hb. unfold window_end. cbv zeta.
  destruct (Z.ltb_spec (s + chunk_size) (len text)) as [Hlt|Hge]; [|left; reflexivity].
  destruct (find_boundary_cases text seps
              (s + chunk_size - int_fifth chunk_size) (s + chunk_size))
    as [[Hfb _]|(pre & sep & post & Hss & _ & Hfound & Hfb)].
  - left. assumption.
  - right. rewrite Hfb.
    destruct (rfind_found _ _ _ _ Hfound) as (Hlo & Hhi & _).
    pose proof (rfind_lo_nonneg text (s + chunk_size - int_fifth chunk_size)).
    pose proof (len_nonneg sep). lia.
Qed.

Lemma loop_body_chunks (P : str -> Prop) (text : str) (cs ov : Z)
    (st : loop_state) :
  (forall s, P (strip (slice text s (window_end text cs s)))) ->
  Forall P (chunks st) -> Forall P (chunks (loop_body text cs ov st)).
Proof.
  intros HP Hst. unfold loop_body. simpl chunks.
  apply Forall_app. split; [assumption|].
  constructor; [apply HP|constructor].
Qed.

Lemma iterate_chunks (P : str -> Prop) (text : str) (cs ov : Z) :
  (forall s, P (strip (slice text s (window_end text cs s)))) ->
  forall n st, Forall P (chunks st) ->
               Forall P (chunks (iterate n text cs ov st)).
Proof.
  intros HP. induction n as [|n IH]; intros st Hst; simpl iterate; [assumption|].
  destruct (loop_cond text st); [|assumption].
  apply IH. apply loop_body_chunks; assumption.
Qed.

Lemma run_loop_chunks (P : str -> Prop) (text : str) (cs ov : Z) :
  (forall s, P (strip (slice text s (window_end text cs s)))) ->
  forall fuel st st', run_loop fuel text cs ov st = Some st' ->
                      Forall P (chunks st) -> Forall P (chunks st').
Proof.
  intros HP. induction fuel as [|fuel IH]; intros st st' Hrun Hst;
    simpl run_loop in Hrun; [discriminate|].
  destruct (loop_cond text st).
  - eapply IH; [exact Hrun|]. apply loop_body_chunks; assumption.
  - inversion Hrun; subst; assumption.
Qed.

(** A text no longer than [chunk_size] comes back as it is, as the only
    chunk. *)
Lemma chunk_text_short (fuel : nat) (text : str) (cs ov : Z) :
  len text <= cs -> chunk_text fuel text cs ov = Some [text].
Proof.
  intros Hle. unfold chunk_text.
  destruct (Z.leb_spec (len text) cs); [reflexivity|lia].
Qed.

End chunker_facts.

Section chunker_claims.
Import Py Chunker Aux Samples.

Lemma stalling_loop (fuel : nat) (cks : list str) :
  run_loop fuel stalling_text 15 14 {| start := 0; chunks := cks |} = None.
Proof.
  revert cks. induction fuel as [|fuel IH]; intros cks; [reflexivity|].
  cbn [run_loop].
  replace (loop_cond stalling_text {| start := 0; chunks := cks |})
    with true by reflexivity.
  unfold loop_body. cbn [start chunks].
  replace (window_end stalling_text 15 0) with 14 by (vm_compute; reflexivity).
  apply IH.
Qed.

(** C1 (the code departs from it).  With [chunk_size = 15] and
    [chunk_overlap = 14 < 15] the boundary search shortens the first
    window to end at 14, so the next start is [14 - 14 = 0] again: the
    chunk start offsets are 0, 0, 0, ... and are not strictly increasing,
    and [chunk_text] returns for no amount of fuel. *)
Theorem chunk_text_stalls_on_large_overlap :
  len stalling_text = 21
  /\ window_end stalling_text 15 0 = 14
  /\ chunk_starts 3 stalling_text 15 14 init = [0; 0; 0]
  /\ ~ increasing (chunk_starts 3 stalling_text 15 14 init)
  /\ forall fuel, chunk_text fuel stalling_text 15 14 = None.
Proof.
  split; [reflexivity|]. split; [vm_compute; reflexivity|].
  split; [vm_compute; reflexivity|]. split.
  - replace (chunk_starts 3 stalling_text 15 14 init) with [0; 0; 0]
      by (vm_compute; reflexivity).
    simpl. lia.
  - intros fuel. unfold chunk_text.
    replace (len stalling_text <=? 15) with false by reflexivity.
    unfold init. rewrite stalling_loop. reflexivity.
Qed.

(** Where the overlap leaves room for the boundary search
    ([chunk_overlap + int(0.2 * chunk_size) < chunk_size + 2]) every
    window moves the start forward. *)
Lemma window_end_progress (text : str) (cs ov s : Z) :
  0 <= s -> 0 <= ov -> ov < cs -> ov + int_fifth cs < cs + 2 ->
  s < window_end text cs s - ov.
Proof.
  intros Hs Hov Hlt Hroom.
  pose proof (int_fifth_bounds cs ltac:(lia)) as Hw.
  unfold window_end. cbv zeta.
  destruct (Z.ltb_spec (s + cs) (len text)) as [Hin|Hout]; [|lia].
  destruct (find_boundary_cases text seps (s + cs - int_fifth cs) (s + cs))
    as [[Hfb _]|(pre & sep & post & Hss & _ & Hfound & Hfb)]; rewrite Hfb; [lia|].
  destruct (rfind_found _ _ _ _ Hfound) as (Hlo & _).
  assert (Hin' : sep ∈ seps)
    by (rewrite Hss; apply elem_of_app; right; apply list_elem_of_here).
  rewrite (seps_len _ Hin').
  unfold rfind_lo in Hlo.
  destruct (Z.ltb_spec (s + cs - int_fifth cs) 0); lia.
Qed.

Lemma chunk_starts_increasing (text : str) (cs ov : Z) :
  0 <= ov -> ov < cs -> ov + int_fifth cs < cs + 2 ->
  forall n st, 0 <= start st ->
    increasing (chunk_starts n text cs ov st)
    /\ Forall (fun x => start st <= x) (chunk_starts n text cs ov st).
Proof.
  intros Hov Hlt Hroom. induction n as [|n IH]; intros st Hst;
    cbn [chunk_starts]; [split; [exact I|constructor]|].
  destruct (loop_cond text st); [|split; [exact I|constructor]].
  pose proof (window_end_progress text cs ov (start st) Hst Hov Hlt Hroom) as Hp.
  destruct (IH (loop_body text cs ov st)) as [Hinc Hall].
  { unfold loop_body; cbn [start]; lia. }
  split.
  - destruct (chunk_starts n text cs ov (loop_body text cs ov st)) as [|y l] eqn:E;
      [exact I|].
    split; [|assumption].
    apply Forall_cons in Hall as [Hy _].
    unfold loop_body in Hy; cbn [start] in Hy. lia.
  - constructor; [lia|].
    eapply Forall_impl; [exact Hall|].
    intros x Hx. unfold loop_body in Hx; cbn [start] in Hx. lia.
Qed.

Lemma run_loop_terminates (text : str) (cs ov : Z) :
  0 <= ov -> ov < cs -> ov + int_fifth cs < cs + 2 ->
  forall fuel st,
    0 <= start st -> Z.max 0 (len text - start st) < Z.of_nat fuel ->
    exists st', run_loop fuel text cs ov st = Some st'.
Proof.
  intros Hov Hlt Hroom. induction fuel as [|fuel IH]; intros st Hst Hfuel;
    [lia|].
  - cbn [run_loop]. unfold loop_cond.
    destruct (Z.ltb_spec (start st) (len text)) as [Hc|Hc]; [|eauto].
    pose proof (window_end_progress text cs ov (start st) Hst Hov Hlt Hroom) as Hp.
    apply IH; unfold loop_body; cbn [start]; lia.
Qed.

(** X2.  Where the overlap leaves room for the boundary search, that is
    [0 <= chunk_overlap < chunk_size] and
    [chunk_overlap + int(0.2 * chunk_size) < chunk_size + 2], [chunk_text]
    returns: one loop iteration per character of the text, and one more,
    is fuel enough. *)
Lemma chunk_text_returns_with_room (text : str) (cs ov : Z) :
  0 <= ov -> ov < cs -> ov + int_fifth cs < cs + 2 ->
  exists r, chunk_text (S (Z.to_nat (len text))) text cs ov = Some r.
Proof.
  intros Hov Hlt Hroom. unfold chunk_text.
  destruct (Z.leb_spec (len text) cs); [eauto|].
  destruct (run_loop_terminates text cs ov Hov Hlt Hroom
              (S (Z.to_nat (len text))) init) as [st' Hst'].
  - cbn [start init]. lia.
  - cbn [start init]. pose proof (len_nonneg text). lia.
  - rewrite Hst'. eauto.
Qed.

(** C6 (the code departs from it).  A text no longer than [chunk_size]
    is returned as the single chunk without being trimmed: for [" a"]
    the chunk is [" a"], not ["a"]. *)
Theorem chunk_text_short_not_trimmed :
  forall fuel,
    chunk_text fuel (lit " a") 10 2 = Some [lit " a"]
    /\ strip (lit " a") = lit "a"
    /\ chunk_text fuel (lit " a") 10 2 <> Some [strip (lit " a")].
Proof.
  intros fuel.
  assert (H : chunk_text fuel (lit " a") 10 2 = Some [lit " a"])
    by (apply chunk_text_short; vm_compute; discriminate).
  split; [exact H|]. split; [reflexivity|].
  rewrite H. vm_compute. discriminate.
Qed.

(** C7, as stated, fails: the delimiter closest to the nominal end 20 is
    "! " at 18, which would put the cut at 20, but the code cuts at 18,
    just after ". ", because ". " comes first in its separator list. *)
Lemma closest_delimiter_not_chosen :
  ChunkSpec.cut_point two_delimiters 20 0 = 20
  /\ window_end two_delimiters 20 0 = 18
  /\ window_end two_delimiters 20 0 <> ChunkSpec.cut_point two_delimiters 20 0.
Proof.
  split; [vm_compute; reflexivity|]. split; [vm_compute; reflexivity|].
  vm_compute. discriminate.
Qed.

(** C7, amended.  For a window starting at [start >= 0]: when its
    nominal end [start + chunk_size] lies before the end of the text, the
    separators are tried in the order ". ", ".\n", "! ", "? ", "\n\n";
    the first one of them that occurs wholly inside the last
    [int(0.2 * chunk_size)] characters of the window decides the cut,
    which is placed just after the last such occurrence of that
    separator; when none occurs there the cut is at the nominal end.
    When the nominal end is not before the end of the text, the cut is
    at the nominal end. *)
Theorem window_end_first_listed_separator (text : str) (chunk_size start : Z) :
  0 <= start -> 0 <= chunk_size ->
  let e := start + chunk_size in
  let lo := e - int_fifth chunk_size in
  if e <? len text then
    (window_end text chunk_size start = e
     /\ forall sep j, sep ∈ seps -> lo <= j -> j + 2 <= e ->
                      occurs_at text sep j = false)
    \/ exists pre sep post idx,
         seps = pre ++ sep :: post
         /\ (forall p j, p ∈ pre -> lo <= j -> j + 2 <= e ->
                         occurs_at text p j = false)
         /\ lo <= idx /\ idx + 2 <= e
         /\ occurs_at text sep idx = true
         /\ (forall j, idx < j -> j + 2 <= e -> occurs_at text sep j = false)
         /\ window_end text chunk_size start = idx + 2
  else window_end text chunk_size start = e.
Proof.
  intros Hs Hcs e lo.
  pose proof (int_fifth_bounds chunk_size Hcs) as Hw.
  unfold window_end. cbv zeta. fold e. fold lo.
  destruct (Z.ltb_spec e (len text)) as [Hin|Hout]; [|reflexivity].
  assert (Hlo : rfind_lo text lo = lo).
  { unfold rfind_lo. destruct (Z.ltb_spec lo 0); subst lo e; lia. }
  assert (Hhi : rfind_hi text e = e).
  { unfold rfind_hi.
    destruct (Z.ltb_spec (len text) e); [lia|].
    destruct (Z.ltb_spec e 0); subst e; lia. }
  destruct (find_boundary_cases text seps lo e)
    as [[Hfb Hnone]|(pre & sep & post & Hss & Hpre & Hfound & Hfb)].
  - left. split; [assumption|].
    intros sep j Hsep Hj1 Hj2.
    apply (rfind_none text sep lo e (Hnone sep Hsep));
      rewrite ?Hlo, ?Hhi, ?(seps_len sep Hsep); lia.
  - right.
    assert (Hsep : sep ∈ seps)
      by (rewrite Hss; apply elem_of_app; right; apply list_elem_of_here).
    destruct (rfind_found _ _ _ _ Hfound) as (H1 & H2 & H3 & H4).
    rewrite Hlo in H1. rewrite Hhi, (seps_len sep Hsep) in H2.
    exists pre, sep, post, (rfind text sep lo e).
    split; [assumption|]. split.
    { intros p j Hp Hj1 Hj2.
      assert (Hp' : p ∈ seps)
        by (rewrite Hss; apply elem_of_app; left; assumption).
      apply (rfind_none text p lo e (Hpre p Hp));
        rewrite ?Hlo, ?Hhi, ?(seps_len p Hp'); lia. }
    split; [assumption|]. split; [assumption|]. split; [assumption|].
    split.
    { intros j Hj1 Hj2. apply H4; [assumption|].
      rewrite Hhi, (seps_len sep Hsep). lia. }
    rewrite Hfb, (seps_len sep Hsep). reflexivity.
Qed.

(** C8.  For [chunk_size >= 0] no chunk is longer than [chunk_size] plus
    the boundary-search window [int(0.2 * chunk_size)]: this holds of
    every chunk cut by any number of loop iterations, and so of every
    chunk of a returned list. *)
Theorem chunk_length_within_tolerance (text : str) (chunk_size chunk_overlap : Z) :
  0 <= chunk_size ->
  (forall n,
      Forall (fun c => len c <= chunk_size + int_fifth chunk_size)
        (chunks (iterate n text chunk_size chunk_overlap init)))
  /\ (forall fuel r,
         chunk_text fuel text chunk_size chunk_overlap = Some r ->
         Forall (fun c => len c <= chunk_size + int_fifth chunk_size) r).
Proof.
  intros Hcs.
  pose proof (int_fifth_bounds chunk_size Hcs) as Hw.
  assert (HP : forall s,
    len (strip (slice text s (window_end text chunk_size s)))
    <= chunk_size + int_fifth chunk_size).
  { intros s. pose proof (strip_length (slice text s (window_end text chunk_size s))).
    pose proof (window_slice_bound text chunk_size s Hcs). lia. }
  split.
  - intros n.
    apply (iterate_chunks (fun c => len c <= chunk_size + int_fifth chunk_size));
      [exact HP|constructor].
  - intros fuel r. unfold chunk_text.
    destruct (Z.leb_spec (len text) chunk_size) as [Hshort|Hlong].
    + intros [= <-]. constructor; [lia|constructor].
    + destruct (run_loop fuel text chunk_size chunk_overlap init)
        as [st'|] eqn:Hrun; [|discriminate].
      intros [= <-].
      eapply (run_loop_chunks (fun c => len c <= chunk_size + int_fifth chunk_size));
        [exact HP|exact Hrun|constructor].
Qed.

End chunker_claims.

(** ** The embedding generator *)

Section embedding_facts.
Import Py Embeddings Aux Samples.

Lemma slice_nonneg {A} (t : list A) (a b : Z) :
  0 <= a -> 0 <= b ->
  slice t a b = take (Z.to_nat (b - a)) (drop (Z.to_nat a) t).
Proof.
  intros Ha Hb. unfold slice, adjust_index. cbv zeta.
  destruct (Z.ltb_spec a 0); [lia|]. destruct (Z.ltb_spec b 0); [lia|].
  set (n := Z.of_nat (List.length t)).
  destruct (Z.le_gt_cases n a) as [Hna|Hna].
  - rewrite (drop_ge t (Z.to_nat (Z.min a n))) by (subst n; lia).
    rewrite (drop_ge t (Z.to_nat a)) by (subst n; lia).
    rewrite !take_nil. reflexivity.
  - replace (Z.min a n) with a by lia.
    destruct (Z.le_gt_cases b n) as [Hbn|Hbn].
    + replace (Z.min b n) with b by lia. reflexivity.
    + replace (Z.min b n) with n by lia.
      rewrite !take_ge; [reflexivity| |]; rewrite length_drop; subst n; lia.
Qed.

Section with_provider.
Variable provider : nat -> embed_input -> result (list embedding).

(** All three attempts fail: three requests, waits of 2 and 2 between
    them, and the retry error is raised. *)
Lemma generate_embedding_gives_up (text : str) (st : client_state) e1 e2 e3 :
  provider (calls st) (One (sent text)) = Raise e1 ->
  provider (S (calls st)) (One (sent text)) = Raise e2 ->
  provider (S (S (calls st))) (One (sent text)) = Raise e3 ->
  generate_embedding provider text st
  = (Raise (RetryError e3),
     {| calls := S (S (S (calls st))); sleeps := sleeps st ++ [2; 2] |}).
Proof.
  intros H1 H2 H3.
  unfold generate_embedding, retry. cbn [Nat.sub attempts].
  unfold generate_embedding_body. cbv zeta.
  repeat match goal with
         | |- context [provider _ (One ?x)] =>
             lazymatch x with
             | sent text => fail
             | _ => change x with (sent text)
             end
         end.
  rewrite H1. cbn [tick sleep calls sleeps].
  rewrite H2. cbn [tick sleep calls sleeps].
  rewrite H3.
  change (wait_exponential 1 2 10 1) with 2.
  change (wait_exponential 1 2 10 (1 + 1)) with 2.
  unfold tick, sleep. cbn [calls sleeps].
  rewrite <- app_assoc. reflexivity.
Qed.

(** A failure is surfaced only after three failed requests. *)
Lemma generate_embedding_raises_after_three (text : str) (st st' : client_state) e :
  generate_embedding provider text st = (Raise e, st') ->
  calls st' = S (S (S (calls st)))
  /\ is_ok (generate_embedding_body provider text st).1 = false.
Proof.
  unfold generate_embedding, retry. cbn [Nat.sub attempts].
  destruct (generate_embedding_body provider text st) as [r1 s1] eqn:E1.
  assert (C1 : calls s1 = S (calls st)).
  { unfold generate_embedding_body in E1. cbv zeta in E1.
    destruct (provider _ _) as [[|d ?]|?]; inversion E1; reflexivity. }
  destruct r1 as [a|e1]; [discriminate|].
  destruct (generate_embedding_body provider text (sleep _ s1)) as [r2 s2] eqn:E2.
  assert (C2 : calls s2 = S (calls s1)).
  { unfold generate_embedding_body in E2. cbv zeta in E2.
    destruct (provider _ _) as [[|d ?]|?]; inversion E2; reflexivity. }
  destruct r2 as [a|e2]; [discriminate|].
  destruct (generate_embedding_body provider text (sleep _ s2)) as [r3 s3] eqn:E3.
  assert (C3 : calls s3 = S (calls s2)).
  { unfold generate_embedding_body in E3. cbv zeta in E3.
    destruct (provider _ _) as [[|d ?]|?]; inversion E3; reflexivity. }
  destruct r3 as [a|e3]; [discriminate|].
  intros [= <- <-]. split; [congruence|reflexivity].
Qed.

Variable emb : str -> embedding.
Hypothesis provider_in_order :
  forall n batch, provider n (Many batch) = Ok (map emb batch).

Lemma batch_loop_in_order (texts : list str) (bs : Z) :
  0 < bs ->
  forall K j0 acc st,
    batch_loop provider
      (map (fun k => Z.of_nat k * bs) (seq j0 K)) texts bs acc st
    = (Ok (acc ++ map (fun t => emb (slice t 0 30000))
                    (take (K * Z.to_nat bs)
                       (drop (j0 * Z.to_nat bs) texts))),
       {| calls := (calls st + K)%nat; sleeps := sleeps st |}).
Proof.
  intros Hbs. induction K as [|K IH]; intros j0 acc st.
  - cbn [seq map batch_loop]. rewrite Nat.mul_0_l, take_0. cbn [map].
    rewrite app_nil_r, Nat.add_0_r. destruct st; reflexivity.
  - cbn [seq map batch_loop].
    rewrite provider_in_order.
    rewrite IH. cbn [tick calls sleeps].
    f_equal; [|f_equal; lia].
    f_equal. rewrite <- app_assoc. f_equal.
    rewrite slice_nonneg by lia.
    replace (Z.to_nat (Z.of_nat j0 * bs + bs - Z.of_nat j0 * bs))
      with (Z.to_nat bs) by lia.
    replace (Z.to_nat (Z.of_nat j0 * bs)) with (j0 * Z.to_nat bs)%nat by lia.
    rewrite map_map, <- map_app. f_equal.
    replace (S j0 * Z.to_nat bs)%nat with (j0 * Z.to_nat bs + Z.to_nat bs)%nat by lia.
    rewrite <- drop_drop.
    replace (S K * Z.to_nat bs)%nat with (Z.to_nat bs + K * Z.to_nat bs)%nat by lia.
    apply take_take_drop.
Qed.
End with_provider.

End embedding_facts.

Section embedding_claims.
Import Py Embeddings Aux Samples.

(** C3 (the code departs from it on the batch path).  Against a
    provider that fails once, [generate_embedding] waits 2 and succeeds
    on its second request, while [generate_embeddings_batch], which
    carries no retry decorator, raises the provider's error after a
    single request. *)
Theorem batch_path_is_not_retried :
  generate_embedding flaky_provider (lit "hello") fresh_client
  = (Ok [1%Q], {| calls := 2; sleeps := [2] |})
  /\ generate_embeddings_batch flaky_provider [lit "hello"] 100 fresh_client
     = (Raise (Exception "provider unavailable"),
        {| calls := 1; sleeps := [] |}).
Proof. split; vm_compute; reflexivity. Qed.

(** C9.  For a positive batch size and a provider that answers every
    request with one embedding per text, in the order of the texts, the
    result holds exactly one embedding per input text, the one at index
    [i] being that of [texts[i]] (truncated to 30000 characters), and the
    provider is called once per group. *)
Theorem generate_embeddings_batch_in_order
    (provider : nat -> embed_input -> result (list embedding))
    (emb : str -> embedding) (texts : list str) (batch_size : Z)
    (st : client_state) :
  0 < batch_size ->
  (forall n batch, provider n (Many batch) = Ok (map emb batch)) ->
  exists out st',
    generate_embeddings_batch provider texts batch_size st = (Ok out, st')
    /\ out = map (fun t => emb (slice t 0 30000)) texts
    /\ List.length out = List.length texts
    /\ (forall i t, texts !! i = Some t ->
                    out !! i = Some (emb (slice t 0 30000)))
    /\ Z.of_nat (calls st')
       = Z.of_nat (calls st)
         + (Z.of_nat (List.length texts) + batch_size - 1) / batch_size.
Proof.
  intros Hbs Hp.
  set (n := Z.of_nat (List.length texts)).
  set (K := Z.to_nat ((n + batch_size - 1) / batch_size)).
  assert (Hq : 0 <= (n + batch_size - 1) / batch_size)
    by (apply Z.div_pos; subst n; lia).
  assert (Hcover : (List.length texts <= K * Z.to_nat batch_size)%nat).
  { pose proof (Z.div_mod (n + batch_size - 1) batch_size ltac:(lia)) as Hdm.
    pose proof (Z.mod_pos_bound (n + batch_size - 1) batch_size Hbs) as Hm.
    subst K n. nia. }
  exists (map (fun t => emb (slice t 0 30000)) texts).
  exists {| calls := (calls st + K)%nat; sleeps := sleeps st |}.
  split.
  - unfold generate_embeddings_batch, py_range. fold n.
    destruct (Z.eqb_spec batch_size 0); [lia|].
    destruct (Z.ltb_spec batch_size 0); [lia|].
    fold K.
    rewrite (batch_loop_in_order provider emb Hp texts batch_size Hbs K 0 [] st).
    rewrite Nat.mul_0_l, drop_0, app_nil_l, take_ge by exact Hcover.
    reflexivity.
  - split; [reflexivity|]. split; [apply length_map|]. split.
    + intros i t Hi.
      change (((fun t => emb (slice t 0 30000)) <$> texts) !! i
              = Some (emb (slice t 0 30000))).
      rewrite list_lookup_fmap.
      exact (f_equal (fmap (fun t => emb (slice t 0 30000))) Hi).
    + cbn [calls]. subst K. lia.
Qed.

End embedding_claims.

(** ** Vector search and the job ledger *)

Section database_facts.
Import Database Aux Samples.

Lemma float8_le_total (a b : float8) :
  float8_le a b = false -> float8_le b a = true.
Proof.
  destruct a as [x|], b as [y|]; cbn [float8_le]; try congruence.
  intros H. apply Qle_bool_iff. apply Qlt_le_weak, Qnot_le_lt. intros Hle.
  apply Qle_bool_iff in Hle. congruence.
Qed.

Lemma float8_le_trans (a b c : float8) :
  float8_le a b = true -> float8_le b c = true -> float8_le a c = true.
Proof.
  destruct a as [x|], b as [y|], c as [z|]; cbn [float8_le]; try congruence.
  rewrite !Qle_bool_iff. apply Qle_trans.
Qed.

Lemma float8_le_num (a : float8) (y : Q) :
  float8_le a (Num y) = true -> exists x, a = Num x /\ (x <= y)%Q.
Proof.
  destruct a as [x|]; cbn [float8_le]; [|discriminate].
  intros H. exists x. split; [reflexivity|]. apply Qle_bool_iff. exact H.
Qed.

Lemma float8_le_nan (b : float8) : float8_le NaN b = true -> b = NaN.
Proof. destruct b; cbn [float8_le]; [discriminate|reflexivity]. Qed.

(** The engine's [s > threshold] holds when [s] is a number above the
    number [threshold], and when [s] is NaN and [threshold] is not. *)
Lemma float8_gt_iff (s threshold : float8) :
  float8_gt s threshold = true
  <-> SearchSpec.above threshold s \/ (s = NaN /\ exists t, threshold = Num t).
Proof.
  unfold float8_gt, SearchSpec.above.
  destruct s as [x|], threshold as [t|]; cbn [float8_le negb].
  - split.
    + intros H. left. apply Qnot_le_lt. intros Hle.
      apply Qle_bool_iff in Hle. rewrite Hle in H. discriminate.
    + intros [H|[H _]]; [|discriminate].
      destruct (Qle_bool x t) eqn:Hle; [|reflexivity].
      apply Qle_bool_iff in Hle. exfalso. exact (Qlt_not_le _ _ H Hle).
  - split; [discriminate|]. intros [[]|[H _]]. discriminate.
  - split; [|reflexivity]. intros _. right. split; [reflexivity|].
    exists t. reflexivity.
  - split; [discriminate|]. intros [[]|[_ [t H]]]. discriminate.
Qed.

Lemma StronglySorted_take_stable {B} (R : B -> B -> Prop) (n : nat) (l : list B) :
  StronglySorted R l -> StronglySorted R (take n l).
Proof.
  revert n. induction l as [|x l IH]; intros [|n] Hs; simpl; try constructor.
  - apply IH. apply StronglySorted_inv in Hs. tauto.
  - apply StronglySorted_inv in Hs as [_ Hx].
    apply Forall_take. exact Hx.
Qed.

Lemma StronglySorted_fmap_on {B C} (R1 : B -> B -> Prop) (R2 : C -> C -> Prop)
    (P : B -> Prop) (f : B -> C) (l : list B) :
  (forall x y, P x -> P y -> R1 x y -> R2 (f x) (f y)) ->
  Forall P l -> StronglySorted R1 l -> StronglySorted R2 (f <$> l).
Proof.
  intros HR. induction l as [|x l IH]; intros HP Hs; [constructor|].
  apply Forall_cons in HP as [Hx HP].
  apply StronglySorted_inv in Hs as [Hl Hxl].
  cbn [fmap list_fmap]. constructor; [apply IH; assumption|].
  apply Forall_fmap, Forall_forall. intros y Hy.
  apply HR; [exact Hx| |].
  - revert y Hy. apply Forall_forall. exact HP.
  - revert y Hy. apply Forall_forall. exact Hxl.
Qed.

Section ordering.
Context {A : Type} (key : A -> float8).

Lemma insert_by_perm (x : A) (l : list A) : insert_by key x l ≡ₚ x :: l.
Proof.
  induction l as [|y l IH]; simpl insert_by; [reflexivity|].
  destruct (float8_le (key x) (key y)); [reflexivity|].
  rewrite IH. apply Permutation_swap.
Qed.

Lemma order_by_perm (l : list A) : order_by key l ≡ₚ l.
Proof.
  induction l as [|x l IH]; [reflexivity|].
  unfold order_by in *. cbn [foldr].
  rewrite insert_by_perm, IH. reflexivity.
Qed.

Lemma insert_by_sorted (x : A) (l : list A) :
  StronglySorted (by_key key) l -> StronglySorted (by_key key) (insert_by key x l).
Proof.
  induction l as [|y l IH]; intros Hs; simpl insert_by.
  - repeat constructor.
  - apply StronglySorted_inv in Hs as [Hl Hy].
    destruct (float8_le (key x) (key y)) eqn:Hxy.
    + constructor; [constructor; assumption|].
      constructor; [exact Hxy|].
      eapply Forall_impl; [exact Hy|].
      intros z Hz. unfold by_key in *. eapply float8_le_trans; eassumption.
    + apply float8_le_total in Hxy.
      constructor; [apply IH; assumption|].
      rewrite insert_by_perm. constructor; assumption.
Qed.

Lemma order_by_sorted (l : list A) : StronglySorted (by_key key) (order_by key l).
Proof.
  induction l as [|x l IH]; [constructor|].
  unfold order_by in *. cbn [foldr]. apply insert_by_sorted. exact IH.
Qed.

(** In ascending order the numbers come first and the NaN keys last. *)
Lemma sorted_numbers_first (l : list A) :
  StronglySorted (by_key key) l ->
  exists l1 l2,
    l = l1 ++ l2
    /\ Forall (fun x => exists q, key x = Num q) l1
    /\ Forall (fun x => key x = NaN) l2.
Proof.
  induction l as [|x l IH]; intros Hs.
  { exists [], []. repeat split; constructor. }
  apply StronglySorted_inv in Hs as [Hl Hx].
  destruct (key x) as [q|] eqn:Hk.
  - destruct (IH Hl) as (l1 & l2 & -> & H1 & H2).
    exists (x :: l1), l2. split; [reflexivity|]. split; [|exact H2].
    constructor; [exists q; exact Hk|exact H1].
  - exists [], (x :: l). split; [reflexivity|]. split; [constructor|].
    constructor; [exact Hk|].
    eapply Forall_impl; [exact Hx|].
    intros y Hy. unfold by_key in Hy. rewrite Hk in Hy.
    apply float8_le_nan. exact Hy.
Qed.

End ordering.

Lemma search_similar_documents_inv (distance : list Q -> list Q -> float8)
    (q : list Q) (limit : Z) (threshold : float8) (d : Schema.db)
    (rows : list search_row) :
  search_similar_documents distance q limit threshold d = Ok rows ->
  0 <= limit
  /\ rows = map (select_row distance q)
             (take (Z.to_nat limit)
                (order_by (fun r => distance (Schema.embedding r) q)
                   (matching distance q threshold d))).
Proof.
  unfold search_similar_documents, matching.
  destruct (Z.ltb_spec limit 0); [discriminate|].
  intros [= <-]. split; [assumption|reflexivity].
Qed.

(** The rows that pass the WHERE clause: those with a similarity above
    the threshold, and those whose distance is NaN. *)
Lemma matching_iff (distance : list Q -> list Q -> float8)
    (q : list Q) (threshold : float8) (d : Schema.db) (k : Schema.kb_row) :
  k ∈ matching distance q threshold d
  <-> k ∈ Schema.knowledge_base d
      /\ (SearchSpec.above threshold (similarity (select_row distance q k))
          \/ (distance (Schema.embedding k) q = NaN
              /\ exists t, threshold = Num t)).
Proof.
  unfold matching. cbn [select_row similarity].
  rewrite list_elem_of_In, filter_In, <- list_elem_of_In, float8_gt_iff.
  split; intros [Hin H]; (split; [exact Hin|]).
  - destruct H as [H|[H Ht]]; [left; exact H|right; split; [|exact Ht]].
    destruct (distance (Schema.embedding k) q); [discriminate|reflexivity].
  - destruct H as [H|[H Ht]]; [left; exact H|right; split; [|exact Ht]].
    rewrite H. reflexivity.
Qed.

(** What the search returns: at most [limit] rows of the knowledge
    base; first the rows whose similarity is a number, each above the
    threshold, in order of non-increasing similarity; then the rows whose
    similarity is NaN. *)
Lemma search_rows_split (distance : list Q -> list Q -> float8)
    (q : list Q) (limit : Z) (threshold : float8) (d : Schema.db)
    (rows : list search_row) :
  search_similar_documents distance q limit threshold d = Ok rows ->
  0 <= limit
  /\ Z.of_nat (List.length rows) <= limit
  /\ Forall (fun r => exists k, k ∈ Schema.knowledge_base d
                                /\ r = select_row distance q k) rows
  /\ exists numbers nans,
       rows = numbers ++ nans
       /\ Forall (fun r => SearchSpec.above threshold (similarity r)) numbers
       /\ StronglySorted
            (fun a b => SearchSpec.no_greater (similarity b) (similarity a))
            numbers
       /\ Forall (fun r => similarity r = NaN) nans
       /\ (nans <> [] -> exists t, threshold = Num t).
Proof.
  intros Hs. apply search_similar_documents_inv in Hs as [Hlim ->].
  set (dist := fun r => distance (Schema.embedding r) q).
  set (l := take (Z.to_nat limit) (order_by dist (matching distance q threshold d))).
  assert (Hsorted : StronglySorted (by_key dist) l)
    by (apply StronglySorted_take_stable; apply order_by_sorted).
  assert (Hall : Forall (fun k => k ∈ matching distance q threshold d) l).
  { apply Forall_take, Forall_forall. intros k Hk.
    rewrite (order_by_perm dist) in Hk. exact Hk. }
  change (map ?f ?l) with (f <$> l).
  split; [exact Hlim|].
  split; [rewrite length_fmap; subst l; rewrite length_take; lia|].
  split.
  { apply Forall_fmap. eapply Forall_impl; [exact Hall|].
    intros k Hk. apply matching_iff in Hk as [Hk _].
    exists k. split; [exact Hk|reflexivity]. }
  destruct (sorted_numbers_first dist l Hsorted) as (l1 & l2 & Hl & H1 & H2).
  rewrite Hl in Hall, Hsorted. rewrite Hl.
  apply Forall_app in Hall as [Hall1 Hall2].
  exists (select_row distance q <$> l1), (select_row distance q <$> l2).
  split; [apply fmap_app|]. split.
  { apply Forall_fmap, Forall_forall. intros k Hk.
    pose proof (proj1 (Forall_forall _ _) Hall1 k Hk) as Hm.
    pose proof (proj1 (Forall_forall _ _) H1 k Hk) as [x Hx].
    apply matching_iff in Hm as [_ [Hm|[Hm _]]]; [exact Hm|].
    unfold dist in Hx. congruence. }
  split.
  { apply (StronglySorted_fmap_on (by_key dist) _
             (fun k => exists x, dist k = Num x)); [|exact H1|].
    - intros x y [qx Hx] [qy Hy] Hxy. unfold by_key in Hxy.
      cbn [select_row similarity]. fold (dist x). fold (dist y).
      rewrite Hx, Hy in *. cbn [float8_le one_minus SearchSpec.no_greater] in *.
      apply Qle_bool_iff in Hxy. lra.
    - eapply StronglySorted_app_1_l. exact Hsorted. }
  split.
  { apply Forall_fmap. eapply Forall_impl; [exact H2|].
    intros k Hk. cbn [compose select_row similarity]. fold (dist k).
    rewrite Hk. reflexivity. }
  intros Hne. destruct l2 as [|k l2]; [exfalso; apply Hne; reflexivity|].
  apply Forall_cons in Hall2 as [Hm _]. apply Forall_cons in H2 as [Hk _].
  apply matching_iff in Hm as [_ [Hm|[_ Ht]]]; [|exact Ht].
  cbn [select_row similarity] in Hm. fold (dist k) in Hm. rewrite Hk in Hm.
  destruct threshold; destruct Hm.
Qed.

End database_facts.

Section database_claims.
Import Database Aux Samples.

(** C5, as the specification words it, fails on the code.  With a
    document at distance 0.1 and a document stored with the zero vector,
    whose distance is NaN, a search with threshold 0.7 returns both, with
    similarities 0.9 and NaN: the second row is not above the threshold,
    and the rows are not in order of non-increasing similarity (in the
    engine's own ordering the NaN is the greater of the two). *)
Lemma search_returns_a_nan_row :
  exists rows,
    search_similar_documents sample_distance [1%Q] 5 (Num (7 # 10))
      zero_vector_library = Ok rows
    /\ map similarity rows = [Num (9 # 10); NaN]
    /\ ~ SearchSpec.sound (Num (7 # 10)) 5 rows
    /\ ~ Forall (fun r => SearchSpec.above (Num (7 # 10)) (similarity r)) rows
    /\ ~ StronglySorted
           (fun a b => SearchSpec.no_greater (similarity b) (similarity a)) rows
    /\ ~ StronglySorted
           (fun a b => float8_le (similarity b) (similarity a) = true) rows.
Proof.
  eexists. split; [vm_compute; reflexivity|].
  split; [reflexivity|].
  assert (Habove : ~ Forall (fun r => SearchSpec.above (Num (7 # 10)) (similarity r))
                       [select_row sample_distance [1%Q] (sample_row 1 (1 # 10));
                        select_row sample_distance [1%Q] (sample_row 2 0)]).
  { intros H. apply Forall_cons in H as [_ H]. apply Forall_cons in H as [H _].
    exact H. }
  split; [intros (H & _ & _); exact (Habove H)|].
  split; [exact Habove|].
  split.
  - intros H. apply StronglySorted_inv in H as [_ H].
    apply Forall_cons in H as [H _]. exact H.
  - intros H. apply StronglySorted_inv in H as [_ H].
    apply Forall_cons in H as [H _]. vm_compute in H. discriminate.
Qed.

(** C5, amended.  For every query vector, limit and threshold,
    [search_similar_documents] either fails because the limit is
    negative, or returns at most [limit] rows of the knowledge base: first
    the rows whose similarity is a number, each strictly above the
    threshold and in order of non-increasing similarity, and after them
    the rows whose distance, and so similarity, is NaN, which pass the
    engine's test [1 - distance > threshold] against any threshold that is
    a number. *)
Theorem search_similar_documents_numbers_first
    (distance : list Q -> list Q -> float8) (query_embedding : list Q)
    (limit : Z) (threshold : float8) (d : Schema.db) :
  match search_similar_documents distance query_embedding limit threshold d with
  | Ok rows =>
      0 <= limit
      /\ Z.of_nat (List.length rows) <= limit
      /\ Forall (fun r => exists k, k ∈ Schema.knowledge_base d
                                    /\ r = select_row distance query_embedding k)
           rows
      /\ exists numbers nans,
           rows = numbers ++ nans
           /\ Forall (fun r => SearchSpec.above threshold (similarity r)) numbers
           /\ StronglySorted
                (fun a b => SearchSpec.no_greater (similarity b) (similarity a))
                numbers
           /\ Forall (fun r => similarity r = NaN) nans
           /\ (nans <> [] -> exists t, threshold = Num t)
  | Raise _ => limit < 0
  end.
Proof.
  destruct (search_similar_documents distance query_embedding limit threshold d)
    as [rows|e] eqn:Hs.
  - apply (search_rows_split _ _ _ _ _ _ Hs).
  - unfold search_similar_documents in Hs.
    destruct (Z.ltb_spec limit 0) as [Hneg|]; [exact Hneg|discriminate].
Qed.

(** C10.  A call of [update_job_status] on an existing job row that the
    engine carries out sets [status]; sets [progress], [result_data] and
    [error_message] exactly when the argument is not [None]; stamps
    [started_at] only for status "running" and [completed_at] only for
    "success" or "failed"; and leaves [task_name], [input_data], every
    optional column passed as [None], every other job row and the
    knowledge base as they were.  A call the engine refuses raises and
    leaves the whole storage as it was. *)
Theorem update_job_status_frame
    (update_error : Schema.db -> string -> string -> option Z -> option dict
                    -> option string -> option exn)
    (celery_task_id status : string) (progress : option Z)
    (result_data : option dict) (error_message : option string)
    (d : Schema.db) (r : Schema.job_row) :
  Schema.job_status d !! celery_task_id = Some r ->
  let run := update_job_status update_error celery_task_id status progress
               result_data error_message d in
  let d' := run.2 in
  match
    update_error d celery_task_id status progress result_data error_message
  with
  | Some e => run.1 = Raise e /\ d' = d
  | None =>
      run.1 = Ok tt
      /\ exists r',
           Schema.job_status d' !! celery_task_id = Some r'
           /\ Schema.status r' = status
           /\ Schema.task_name r' = Schema.task_name r
           /\ Schema.input_data r' = Schema.input_data r
           /\ Schema.progress r' = from_option Some (Schema.progress r) progress
           /\ Schema.result_data r'
              = from_option Some (Schema.result_data r) result_data
           /\ Schema.error_message r'
              = from_option Some (Schema.error_message r) error_message
           /\ (status <> "running"%string ->
               Schema.started_at r' = Schema.started_at r)
           /\ (status = "running"%string ->
               Schema.started_at r' = Some (Schema.now d))
           /\ (status <> "success"%string -> status <> "failed"%string ->
               Schema.completed_at r' = Schema.completed_at r)
           /\ (status = "success"%string \/ status = "failed"%string ->
               Schema.completed_at r' = Some (Schema.now d))
           /\ (forall other, other <> celery_task_id ->
                 Schema.job_status d' !! other = Schema.job_status d !! other)
           /\ Schema.knowledge_base d' = Schema.knowledge_base d
  end.
Proof.
  intros Hr run d'. subst d' run. unfold update_job_status, get_db_session.
  destruct (update_error d celery_task_id status progress result_data
              error_message) as [e|]; cbn [fst snd].
  { split; reflexivity. }
  split; [reflexivity|].
  unfold job_updated. cbn [Schema.job_status Schema.knowledge_base].
  eexists. split.
  { rewrite lookup_alter_eq, Hr. reflexivity. }
  unfold updated_row.
  cbn [Schema.status Schema.task_name Schema.input_data Schema.progress
       Schema.result_data Schema.error_message Schema.started_at
       Schema.completed_at].
  split; [reflexivity|]. split; [reflexivity|]. split; [reflexivity|].
  split; [destruct progress; reflexivity|].
  split; [destruct result_data; reflexivity|].
  split; [destruct error_message; reflexivity|].
  split.
  { intros Hne. apply String.eqb_neq in Hne. rewrite Hne. reflexivity. }
  split.
  { intros ->. reflexivity. }
  split.
  { intros Hs Hf. apply String.eqb_neq in Hs, Hf. rewrite Hs, Hf.
    destruct (String.eqb status "running"); reflexivity. }
  split.
  { intros [-> | ->]; reflexivity. }
  split; [|reflexivity].
  intros other Hne. apply lookup_alter_ne. congruence.
Qed.

(** Without a row for the task the UPDATE matches nothing. *)
Lemma job_updated_absent
    (celery_task_id status : string) (progress : option Z)
    (result_data : option dict) (error_message : option string)
    (d : Schema.db) :
  Schema.job_status d !! celery_task_id = None ->
  job_updated celery_task_id status progress result_data error_message d = d.
Proof.
  intros Hnone. unfold job_updated. destruct d as [kb js nid t].
  cbn [Schema.knowledge_base Schema.job_status Schema.next_id Schema.now] in *.
  f_equal. apply map_eq. intros k.
  destruct (decide (k = celery_task_id)) as [->|Hne].
  - rewrite lookup_alter_eq, Hnone. reflexivity.
  - apply lookup_alter_ne. congruence.
Qed.

End database_claims.

(** ** Ingestion *)

Section ingestion_facts.
Import Py Database Tasks Aux Samples.

Lemma tracked_row (task_id source_url : string) (d : Schema.db) :
  exists r0,
    Schema.job_status (tracked task_id source_url d) !! task_id = Some r0
    /\ Schema.status r0 = "running"%string
    /\ Schema.error_message r0
       = (Schema.job_status d !! task_id) ≫= Schema.error_message
    /\ forall other, other <> task_id ->
         Schema.job_status (tracked task_id source_url d) !! other
         = Schema.job_status d !! other.
Proof.
  unfold tracked. cbn [Schema.job_status]. eexists. split.
  - apply lookup_insert_eq.
  - split; [destruct (Schema.job_status d !! task_id); reflexivity|].
    split.
    + destruct (Schema.job_status d !! task_id); reflexivity.
    + intros other Hne. apply lookup_insert_ne. congruence.
Qed.

(** [insert_document] either adds exactly the row it built, which the
    engine accepted, or raises and leaves the storage as it was. *)
Lemma insert_document_cases (insert_error : Schema.kb_row -> option exn)
    (source_url source_type filename : string) (content : str)
    (embedding : list Q) (metadata : option dict) (d : Schema.db) :
  (exists e,
      insert_document insert_error source_url source_type filename content
        embedding metadata d = (Raise e, d))
  \/ (exists doc_id d' row,
        insert_document insert_error source_url source_type filename content
          embedding metadata d = (Ok doc_id, d')
        /\ insert_error row = None
        /\ Schema.content_markdown row = content
        /\ Schema.embedding row = embedding
        /\ Schema.char_count row = len content
        /\ Schema.knowledge_base d' = Schema.knowledge_base d ++ [row]
        /\ Schema.job_status d' = Schema.job_status d).
Proof.
  unfold insert_document, get_db_session.
  match goal with
  | |- context [insert_error ?r] => destruct (insert_error r) as [e|] eqn:E
  end.
  - left. exists e. reflexivity.
  - right. do 3 eexists. split; [reflexivity|].
    split; [exact E|]. repeat split; reflexivity.
Qed.

Section batch_facts.
Context {W : Type}.
Variable future_repr : exn -> string.
Variable apply_ingest : string -> option dict -> W -> result dict * W.
Variable report : Z -> Z -> W -> W.

Lemma count_total (outs : list (result dict)) :
  count_ok outs + count_raised outs = Z.of_nat (List.length outs).
Proof.
  unfold count_ok, count_raised.
  induction outs as [|r outs IH]; [reflexivity|].
  cbn [List.filter List.length]. destruct (is_ok r); cbn [negb List.length]; lia.
Qed.

Lemma outcomes_length (urls : list string) (n : Z) (metadata : option dict) :
  forall i w,
    List.length (outcomes apply_ingest report urls i n metadata w)
    = List.length urls.
Proof.
  induction urls as [|url urls IH]; intros i w; cbn [outcomes]; [reflexivity|].
  destruct (apply_ingest url metadata w) as [r w1].
  cbn [List.length]. rewrite IH. reflexivity.
Qed.

(** The loop adds one entry per item, in order, and counts each item
    once, as a success or as a failure. *)
Lemma ingest_loop_spec (urls : list string) (n : Z) (metadata : option dict) :
  forall i results w,
    let outs := outcomes apply_ingest report urls i n metadata w in
    (ingest_loop future_repr apply_ingest report urls i n metadata results w).1
    = {| total := total results;
         success := success results + count_ok outs;
         failed := failed results + count_raised outs;
         documents := documents results
                      ++ zip_with (entry_of future_repr) urls outs |}.
Proof.
  induction urls as [|url urls IH]; intros i results w outs; subst outs.
  - cbn [ingest_loop outcomes zip_with fst].
    unfold count_ok, count_raised. cbn [List.filter List.length].
    rewrite app_nil_r, !Z.add_0_r. destruct results; reflexivity.
  - cbn [ingest_loop outcomes].
    destruct (apply_ingest url metadata w) as [r w1].
    rewrite IH. cbn [zip_with].
    destruct r as [result|e];
      cbn [total success failed documents entry_of];
      unfold count_ok, count_raised;
      cbn [List.filter is_ok negb List.length];
      rewrite <- app_assoc; cbn [app]; f_equal; lia.
Qed.

(** The entry of a failed item holds its URL, the status "failed" and
    the text of the error, and nothing else. *)
Lemma failure_entry_keys (url : string) (e : exn) :
  failure_entry future_repr url e !! "source_url" = Some (VStr url)
  /\ failure_entry future_repr url e !! "status" = Some (VStr "failed")
  /\ failure_entry future_repr url e !! "error"
     = Some (VStr (str_of_exn future_repr e))
  /\ forall key, failure_entry future_repr url e !! key <> None ->
       key ∈ ["source_url"; "status"; "error"]%string.
Proof.
  unfold failure_entry. cbn [list_to_map foldr fst snd uncurry].
  split; [apply lookup_insert_eq|].
  split; [rewrite lookup_insert_ne by discriminate; apply lookup_insert_eq|].
  split.
  { rewrite !lookup_insert_ne by discriminate. apply lookup_insert_eq. }
  intros key Hkey.
  destruct (decide (key = "source_url"%string)) as [->|H1];
    [apply list_elem_of_here|].
  destruct (decide (key = "status"%string)) as [->|H2];
    [apply list_elem_of_further, list_elem_of_here|].
  destruct (decide (key = "error"%string)) as [->|H3];
    [do 2 apply list_elem_of_further; apply list_elem_of_here|].
  exfalso. apply Hkey.
  rewrite !lookup_insert_ne by congruence. apply lookup_empty.
Qed.
End batch_facts.

Section run_facts.
Variable parse_document : string -> result parsed.
Variable provider : nat -> Embeddings.embed_input -> result (list Embeddings.embedding).
Variable insert_error : Schema.kb_row -> option exn.
Variable track_error : Schema.db -> string -> string -> option exn.
Variable update_error :
  Schema.db -> string -> string -> option Z -> option dict -> option string
  -> option exn.
Variable future_repr : exn -> string.

(** A run of [ingest_document], outcome by outcome. *)
Lemma ingest_document_unfold (task_id source_url : string)
    (metadata : option dict) (w : world) :
  let d0 := tracked task_id source_url (store w) in
  ingest_document parse_document provider insert_error track_error
    update_error future_repr task_id source_url metadata w
  = match track_error (store w) task_id source_url with
    | Some e => (Raise e, world_of (store w) (client w) w)
    | None =>
        match parse_document source_url with
        | Raise e => handled update_error future_repr task_id e d0 (client w) w
        | Ok doc =>
            match Embeddings.generate_embedding provider
                    (summary_text (markdown doc)) (client w) with
            | (Raise e, c) => handled update_error future_repr task_id e d0 c w
            | (Ok emb, c) =>
                let row :=
                  ingest_row source_url metadata doc emb (Schema.next_id d0) in
                match insert_error row with
                | Some e => handled update_error future_repr task_id e d0 c w
                | None =>
                    let result :=
                      ingest_result doc (pretty (Schema.next_id d0)) in
                    match
                      update_error (with_row d0 row) task_id "success"%string
                        (Some 100) (Some result) None
                    with
                    | Some e =>
                        handled update_error future_repr task_id e
                          (with_row d0 row) c w
                    | None =>
                        (Ok result,
                         world_of (mark_success task_id result (with_row d0 row))
                           c w)
                    end
                end
            end
        end
    end.
Proof.
  intros d0. unfold ingest_document, track_job, get_db_session.
  destruct (track_error (store w) task_id source_url) as [et|]; [reflexivity|].
  fold d0. cbv zeta. unfold ingest_steps.
  assert (Hfail : forall e d c,
    match
      update_job_status update_error task_id "failed" None None
        (Some (str_of_exn future_repr e)) d
    with
    | (Raise e', d') =>
        (Raise e', with_store {| store := d; client := c; reported := reported w |} d')
    | (Ok _, d') =>
        (Raise e, with_store {| store := d; client := c; reported := reported w |} d')
    end = handled update_error future_repr task_id e d c w).
  { intros e d c. unfold update_job_status, get_db_session, handled.
    destruct (update_error d task_id "failed"%string None None
                (Some (str_of_exn future_repr e))); reflexivity. }
  destruct (parse_document source_url) as [doc|e].
  2:{ cbn [with_store store client reported]. apply Hfail. }
  cbv zeta. fold (summary_text (markdown doc)). cbn [with_store client].
  destruct (Embeddings.generate_embedding provider (summary_text (markdown doc))
              (client w)) as [[emb|e] c].
  2:{ cbn [with_store with_client store client reported]. apply Hfail. }
  cbn [with_store with_client store client reported].
  unfold insert_document, get_db_session.
  change {| Schema.id := Schema.next_id d0;
            Schema.source_url := source_url;
            Schema.source_type := p_source_type doc;
            Schema.filename := p_filename doc;
            Schema.content_markdown := markdown doc;
            Schema.embedding := emb;
            Schema.metadata := default ∅ (Some (default ∅ metadata ∪ p_metadata doc));
            Schema.char_count := len (markdown doc) |}
    with (ingest_row source_url metadata doc emb (Schema.next_id d0)).
  destruct (insert_error (ingest_row source_url metadata doc emb (Schema.next_id d0))).
  { cbn [with_store store client reported]. apply Hfail. }
  fold (with_row d0 (ingest_row source_url metadata doc emb (Schema.next_id d0))).
  fold (ingest_result doc (pretty (Schema.next_id d0))).
  unfold update_job_status at 1. unfold get_db_session at 1.
  destruct (update_error _ task_id "success"%string (Some 100) _ None).
  { cbn [with_store store client reported]. apply Hfail. }
  reflexivity.
Qed.

(** What the [except] handler leaves behind. *)
Lemma handled_facts (task_id : string) (e : exn) (d : Schema.db)
    (c : Embeddings.client_state) (w : world) :
  let run := handled update_error future_repr task_id e d c w in
  Schema.knowledge_base (store run.2) = Schema.knowledge_base d
  /\ client run.2 = c
  /\ reported run.2 = reported w
  /\ (forall other, other <> task_id ->
        Schema.job_status (store run.2) !! other = Schema.job_status d !! other)
  /\ ((run.1 = Raise e
       /\ update_error d task_id "failed"%string None None
            (Some (str_of_exn future_repr e)) = None
       /\ forall r0, Schema.job_status d !! task_id = Some r0 ->
            exists r, Schema.job_status (store run.2) !! task_id = Some r
                      /\ Schema.status r = "failed"%string
                      /\ Schema.error_message r
                         = Some (str_of_exn future_repr e))
      \/ (exists e',
            run.1 = Raise e'
            /\ update_error d task_id "failed"%string None None
                 (Some (str_of_exn future_repr e)) = Some e'
            /\ store run.2 = d)).
Proof.
  intros run. subst run. unfold handled.
  destruct (update_error d task_id "failed"%string None None
              (Some (str_of_exn future_repr e))) as [e'|] eqn:Hu;
    cbn [fst snd world_of store client reported].
  - split; [reflexivity|]. split; [reflexivity|]. split; [reflexivity|].
    split; [reflexivity|]. right. exists e'. repeat split; reflexivity.
  - split; [reflexivity|]. split; [reflexivity|]. split; [reflexivity|].
    split.
    { intros other Hne. unfold mark_failed, job_updated. cbn [Schema.job_status].
      apply lookup_alter_ne. congruence. }
    left. split; [reflexivity|]. split; [reflexivity|].
    intros r0 Hr0. unfold mark_failed, job_updated. cbn [Schema.job_status].
    rewrite lookup_alter_eq, Hr0. cbn [fmap option_fmap option_map].
    eexists. split; [reflexivity|]. split; reflexivity.
Qed.

End run_facts.

End ingestion_facts.

(** Splits a run of [ingest_document] in [H] or in the goal into its
    outcomes. *)
Ltac ingest_outcomes :=
  match goal with
  | |- context [match ?te _ _ _ with Some _ => (Raise _, Aux.world_of _ _ _) | None => _ end] =>
      destruct (te _ _ _) as [?e|] eqn:?Htrack
  end;
  [| match goal with
     | |- context [match ?pd ?u with Ok _ => _ | Raise _ => _ end] =>
         destruct (pd u) as [?doc|?e] eqn:?Hparse
     end;
     [ match goal with
       | |- context [Embeddings.generate_embedding ?pr ?t ?cl] =>
           destruct (Embeddings.generate_embedding pr t cl) as [[?emb|?e] ?c] eqn:?Hemb
       end;
       [ match goal with
         | |- context [match ?ie ?row with Some _ => _ | None => _ end] =>
             destruct (ie row) as [?e|] eqn:?Hins
         end;
         [| match goal with
            | |- context [?ue ?d ?t ?s (Some 100) ?r None] =>
                destruct (ue d t s (Some 100) r None) as [?e|] eqn:?Hdone
            end ] | ] | ] ].

Section ingestion_claims.
Import Py Database Tasks Aux Samples.



(** C4.  When exactly one of the [N] items raises, [ingest_batch]
    returns [total = N], [success = N - 1], [failed = 1] and [N]
    entries in input order: each item was run, the entry of an item that
    returned is its result, and the entry of the item that raised holds
    its URL under "source_url", "failed" under "status" and the text of
    the error under "error", and no other key. *)
Theorem ingest_batch_isolates_failure {W : Type}
    (future_repr : exn -> string)
    (apply_ingest : string -> option dict -> W -> result dict * W)
    (report : Z -> Z -> W -> W)
    (source_urls : list string) (metadata : option dict) (w : W) :
  let N := Z.of_nat (List.length source_urls) in
  let outs := outcomes apply_ingest report source_urls 0 N metadata w in
  let results :=
    (ingest_batch future_repr apply_ingest report source_urls metadata w).1 in
  count_raised outs = 1 ->
  total results = N
  /\ success results = N - 1
  /\ failed results = 1
  /\ Z.of_nat (List.length (documents results)) = N
  /\ List.length outs = List.length source_urls
  /\ forall i url, source_urls !! i = Some url ->
       exists r entry,
         outs !! i = Some r
         /\ documents results !! i = Some entry
         /\ match r with
            | Ok result => entry = result
            | Raise e =>
                entry !! "source_url" = Some (VStr url)
                /\ entry !! "status" = Some (VStr "failed")
                /\ entry !! "error" = Some (VStr (str_of_exn future_repr e))
                /\ forall key, entry !! key <> None ->
                     key ∈ ["source_url"; "status"; "error"]%string
            end.
Proof.
  intros N outs results Hone.
  assert (Hlen : List.length outs = List.length source_urls)
    by apply outcomes_length.
  assert (Hres : results
                 = {| total := N; success := 0 + count_ok outs;
                      failed := 0 + count_raised outs;
                      documents := [] ++ zip_with (entry_of future_repr)
                                            source_urls outs |}).
  { subst results. unfold ingest_batch. rewrite ingest_loop_spec. reflexivity. }
  pose proof (count_total outs) as Hsum.
  rewrite Hres. cbn [total success failed documents app].
  split; [reflexivity|]. split; [subst N; lia|]. split; [lia|].
  split; [rewrite length_zip_with; subst N; lia|].
  split; [exact Hlen|].
  intros i url Hi.
  destruct (outs !! i) as [r|] eqn:Ho.
  - exists r, (entry_of future_repr url r). split; [reflexivity|]. split.
    + rewrite lookup_zip_with, Hi. cbn [mbind option_bind].
      rewrite Ho. reflexivity.
    + destruct r as [result|e]; cbn [entry_of]; [reflexivity|].
      apply failure_entry_keys.
  - apply lookup_ge_None in Ho. apply lookup_lt_Some in Hi. lia.
Qed.

End ingestion_claims.

(** ** The theorems at concrete inputs *)

Section instances.
Import Py Chunker Embeddings Database Tasks Aux Samples.

Lemma window_end_first_listed_separator_witness :
  0 <= 0 /\ 0 <= 20
  /\ exists sep idx,
       sep ∈ seps /\ occurs_at two_delimiters sep idx = true
       /\ window_end two_delimiters 20 0 = idx + 2.
Proof.
  split; [lia|]. split; [lia|].
  pose proof (window_end_first_listed_separator two_delimiters 20 0
                ltac:(lia) ltac:(lia)) as H.
  cbv zeta in H.
  replace (0 + 20 <? len two_delimiters) with true in H by reflexivity.
  destruct H as [[H _]|(pre & sep & post & idx & Hss & _ & _ & _ & Hocc & _ & Hcut)].
  - exfalso. vm_compute in H. discriminate.
  - exists sep, idx. split; [|split; assumption].
    rewrite Hss. apply elem_of_app. right. apply list_elem_of_here.
Defined.

Lemma chunk_length_within_tolerance_witness :
  0 <= 50
  /\ (forall n,
         Forall (fun c => len c <= 50 + int_fifth 50)
           (chunks (iterate n sample_text 50 10 init)))
  /\ (forall fuel r,
         chunk_text fuel sample_text 50 10 = Some r ->
         Forall (fun c => len c <= 50 + int_fifth 50) r).
Proof.
  split; [lia|]. apply (chunk_length_within_tolerance sample_text 50 10). lia.
Defined.

Lemma generate_embeddings_batch_in_order_witness :
  0 < 2
  /\ (forall n batch, length_provider n (Many batch) = Ok (map length_embedding batch))
  /\ exists out st',
       generate_embeddings_batch length_provider three_texts 2 fresh_client
       = (Ok out, st')
       /\ out = map (fun t => length_embedding (slice t 0 30000)) three_texts
       /\ List.length out = List.length three_texts
       /\ (forall i t, three_texts !! i = Some t ->
                       out !! i = Some (length_embedding (slice t 0 30000)))
       /\ Z.of_nat (calls st')
          = Z.of_nat (calls fresh_client)
            + (Z.of_nat (List.length three_texts) + 2 - 1) / 2.
Proof.
  split; [lia|]. split; [reflexivity|].
  apply (generate_embeddings_batch_in_order length_provider length_embedding
           three_texts 2 fresh_client); [lia|reflexivity].
Defined.

Lemma update_job_status_frame_witness :
  Schema.job_status one_job_db !! "task-1" = Some running_job
  /\ exists r',
       Schema.job_status
         (update_job_status no_update_error "task-1" "failed" None None
            (Some "boom") one_job_db).2
       !! "task-1" = Some r'
       /\ Schema.status r' = "failed"%string
       /\ Schema.task_name r' = "ingest_document"%string
       /\ Schema.progress r' = None
       /\ Schema.error_message r' = Some "boom"%string
       /\ Schema.started_at r' = Some 5
       /\ Schema.completed_at r' = Some 7.
Proof.
  assert (Hr : Schema.job_status one_job_db !! "task-1" = Some running_job)
    by (vm_compute; reflexivity).
  split; [exact Hr|].
  destruct (update_job_status_frame no_update_error "task-1" "failed" None None
              (Some "boom") one_job_db running_job Hr)
    as (_ & r' & H1 & H2 & H3 & _ & H5 & _ & H7 & H8 & _ & _ & H11 & _).
  exists r'. split; [exact H1|]. split; [exact H2|]. split; [exact H3|].
  split; [exact H5|]. split; [exact H7|].
  split; [apply H8; discriminate|]. apply H11. right. reflexivity.
Defined.

Lemma ingest_batch_isolates_failure_witness :
  let outs := outcomes sample_apply update_state sample_urls 0 3 None sample_world in
  let results :=
    (ingest_batch sample_future_repr sample_apply update_state sample_urls None
       sample_world).1 in
  count_raised outs = 1
  /\ total results = 3
  /\ success results = 2
  /\ failed results = 1
  /\ Z.of_nat (List.length (documents results)) = 3
  /\ exists entry,
       documents results !! 1%nat = Some entry
       /\ entry !! "source_url" = Some (VStr "https://x/bad.pdf")
       /\ entry !! "status" = Some (VStr "failed")
       /\ entry !! "error" = Some (VStr "download failed").
Proof.
  intros outs results.
  assert (Hone : count_raised outs = 1) by (vm_compute; reflexivity).
  split; [exact Hone|].
  destruct (ingest_batch_isolates_failure sample_future_repr sample_apply
              update_state sample_urls None sample_world Hone)
    as (H1 & H2 & H3 & H4 & _ & H6).
  split; [exact H1|]. split; [exact H2|]. split; [exact H3|]. split; [exact H4|].
  destruct (H6 1%nat "https://x/bad.pdf"%string eq_refl)
    as (r & entry & Hr & Hd & He).
  vm_compute in Hr. injection Hr as <-.
  destruct He as (E1 & E2 & E3 & _).
  exists entry. split; [exact Hd|]. split; [exact E1|]. split; [exact E2|exact E3].
Defined.

End instances.


(** * Further properties of the worker *)

(** ** The chunker *)

Section chunker_more.
Import Py Chunker Aux Samples.

Lemma lstrip_head (t : str) (c : ascii) (rest : str) :
  lstrip t = c :: rest -> isspace c = false.
Proof.
  induction t as [|d t IH]; simpl lstrip; [discriminate|].
  destruct (isspace d) eqn:Hd; [exact IH|].
  intros [= <- _]. exact Hd.
Qed.

Lemma lstrip_suffix (t : str) : exists pre, t = pre ++ lstrip t.
Proof.
  induction t as [|d t [pre IH]]; simpl lstrip; [exists []; reflexivity|].
  destruct (isspace d).
  - exists (d :: pre). simpl. congruence.
  - exists []. reflexivity.
Qed.

Lemma rstrip_prefix (t : str) : exists post, t = rstrip t ++ post.
Proof.
  unfold rstrip. destruct (lstrip_suffix (rev t)) as [pre Hpre].
  exists (rev pre).
  rewrite <- rev_app_distr, <- Hpre, rev_involutive. reflexivity.
Qed.

Lemma strip_trimmed (t : str) : trimmed (strip t).
Proof.
  unfold trimmed, strip. split.
  - intros c rest Hc.
    destruct (rstrip_prefix (lstrip t)) as [post Hpost].
    rewrite Hc in Hpost. simpl in Hpost.
    eapply lstrip_head. exact Hpost.
  - intros c front Hc. unfold rstrip in Hc.
    apply (f_equal (@rev ascii)) in Hc.
    rewrite rev_involutive, rev_app_distr in Hc. simpl in Hc.
    eapply lstrip_head. exact Hc.
Qed.

(** X1.  Where the overlap leaves room for the boundary search, that is
    [0 <= chunk_overlap < chunk_size] and
    [chunk_overlap + int(0.2 * chunk_size) < chunk_size + 2], the start
    offsets of the chunks are strictly increasing. *)
Theorem chunk_starts_increase_with_room (text : str) (chunk_size chunk_overlap : Z) :
  0 <= chunk_overlap -> chunk_overlap < chunk_size ->
  chunk_overlap + int_fifth chunk_size < chunk_size + 2 ->
  forall n, increasing (chunk_starts n text chunk_size chunk_overlap init).
Proof.
  intros Hov Hlt Hroom n.
  apply (chunk_starts_increasing text chunk_size chunk_overlap Hov Hlt Hroom n init).
  cbn [start init]. lia.
Qed.

(** X3.  For a window starting at [start >= 0] the cut lies at the
    nominal end [start + chunk_size] or before it, and never before the
    search window: it is moved back by at most
    [int(0.2 * chunk_size) - 2] characters. *)
Theorem window_end_range (text : str) (chunk_size start : Z) :
  0 <= start -> 0 <= chunk_size ->
  start + chunk_size - Z.max 0 (int_fifth chunk_size - 2)
  <= window_end text chunk_size start <= start + chunk_size.
Proof.
  intros Hs Hcs.
  pose proof (int_fifth_bounds chunk_size Hcs) as Hw.
  unfold window_end. cbv zeta.
  destruct (Z.ltb_spec (start + chunk_size) (len text)) as [Hin|Hout]; [|lia].
  destruct (find_boundary_cases text seps
              (start + chunk_size - int_fifth chunk_size) (start + chunk_size))
    as [[Hfb _]|(pre & sep & post & Hss & _ & Hfound & Hfb)]; rewrite Hfb; [lia|].
  destruct (rfind_found _ _ _ _ Hfound) as (Hlo & Hhi & _).
  assert (Hin' : sep ∈ seps)
    by (rewrite Hss; apply elem_of_app; right; apply list_elem_of_here).
  rewrite (seps_len _ Hin') in *.
  unfold rfind_lo, rfind_hi in *.
  repeat match goal with
         | H : context [?a <? ?b] |- _ => destruct (Z.ltb_spec a b)
         end; lia.
Qed.

(** X4.  Every chunk cut by the loop is trimmed: it neither starts nor
    ends with whitespace.  So is every chunk of the list returned for a
    text longer than [chunk_size]. *)
Theorem loop_chunks_are_trimmed (text : str) (chunk_size chunk_overlap : Z) :
  chunk_size < len text ->
  (forall n, Forall trimmed (chunks (iterate n text chunk_size chunk_overlap init)))
  /\ (forall fuel r,
         chunk_text fuel text chunk_size chunk_overlap = Some r ->
         Forall trimmed r).
Proof.
  intros Hlong. split.
  - intros n. apply (iterate_chunks trimmed); [|constructor].
    intros s. apply strip_trimmed.
  - intros fuel r. unfold chunk_text.
    destruct (Z.leb_spec (len text) chunk_size) as [Hshort|_]; [lia|].
    destruct (run_loop fuel text chunk_size chunk_overlap init)
      as [st'|] eqn:Hrun; [|discriminate].
    intros [= <-].
    eapply (run_loop_chunks trimmed); [|exact Hrun|constructor].
    intros s. apply strip_trimmed.
Qed.

Lemma occurs_at_head (t : str) (c : ascii) (sub : str) (j : Z) :
  occurs_at t (c :: sub) j = true -> c ∈ t.
Proof.
  unfold occurs_at. intros H. apply andb_true_iff in H as [_ H].
  destruct (drop (Z.to_nat j) t) as [|d rest] eqn:Hd; simpl in H; [discriminate|].
  destruct (Ascii.eqb_spec c d) as [->|]; [|discriminate].
  apply (subseteq_drop (Z.to_nat j) t). rewrite Hd. apply list_elem_of_here.
Qed.

Lemma no_marks_no_separator (text : str) :
  forallb (fun c => negb (sentence_mark c)) text = true ->
  forall sep j, sep ∈ seps -> occurs_at text sep j = false.
Proof.
  intros Hnone sep j Hsep.
  destruct (occurs_at text sep j) eqn:Hocc; [exfalso|reflexivity].
  assert (Hmark : exists c sub, sep = c :: sub /\ sentence_mark c = true).
  { unfold seps in Hsep.
    repeat (apply elem_of_cons in Hsep as [->|Hsep];
            [eexists _, _; split; [reflexivity|reflexivity]|]).
    inversion Hsep. }
  destruct Hmark as (c & sub & -> & Hc).
  apply occurs_at_head in Hocc. apply list_elem_of_In in Hocc.
  rewrite forallb_forall in Hnone. specialize (Hnone c Hocc).
  rewrite Hc in Hnone. discriminate.
Qed.

Lemma rscan_absent (t sub : str) (lo : Z) (k : nat) :
  (forall j, occurs_at t sub j = false) -> rscan t sub lo k = -1.
Proof.
  intros Hnone. induction k as [|k IH]; simpl rscan; [reflexivity|].
  rewrite Hnone. exact IH.
Qed.

Lemma window_end_without_separator (text : str) (cs s : Z) :
  forallb (fun c => negb (sentence_mark c)) text = true ->
  window_end text cs s = s + cs.
Proof.
  intros Hnone. unfold window_end. cbv zeta.
  destruct (s + cs <? len text); [|reflexivity].
  destruct (find_boundary_cases text seps (s + cs - int_fifth cs) (s + cs))
    as [[Hfb _]|(pre & sep & post & Hss & _ & Hfound & _)]; [exact Hfb|].
  exfalso. apply Hfound. unfold rfind. cbv zeta. apply rscan_absent.
  intros j. apply no_marks_no_separator; [exact Hnone|].
  rewrite Hss. apply elem_of_app. right. apply list_elem_of_here.
Qed.

Lemma chunk_starts_without_separator (text : str) (cs ov : Z) :
  forallb (fun c => negb (sentence_mark c)) text = true ->
  forall n st,
    chunk_starts n text cs ov st
    = map (fun k => start st + Z.of_nat k * (cs - ov))
        (seq 0 (List.length (chunk_starts n text cs ov st)))
    /\ chunks (iterate n text cs ov st)
       = chunks st
         ++ map (fun k =>
                   strip (slice text (start st + Z.of_nat k * (cs - ov))
                            (start st + Z.of_nat k * (cs - ov) + cs)))
              (seq 0 (List.length (chunk_starts n text cs ov st))).
Proof.
  intros Hnone. induction n as [|n IH]; intros st; cbn [chunk_starts iterate].
  - cbn [List.length seq map]. rewrite app_nil_r. split; reflexivity.
  - destruct (loop_cond text st).
    2:{ cbn [List.length seq map]. rewrite app_nil_r. split; reflexivity. }
    assert (Hb : loop_body text cs ov st
                 = {| start := start st + cs - ov;
                      chunks := chunks st
                                ++ [strip (slice text (start st) (start st + cs))] |}).
    { unfold loop_body. rewrite window_end_without_separator by exact Hnone.
      reflexivity. }
    rewrite Hb. cbn [List.length seq map].
    match goal with
    | |- context [chunk_starts n text cs ov ?st1] =>
        destruct (IH st1) as [IH1 IH2];
        set (m := List.length (chunk_starts n text cs ov st1)) in *
    end.
    cbn [start chunks] in IH1, IH2.
    rewrite <- seq_shift, !map_map.
    split.
    + rewrite IH1. f_equal; [lia|]. apply map_ext. intros k.
      rewrite Nat2Z.inj_succ. ring.
    + rewrite IH2, <- app_assoc. f_equal. cbn [app].
      f_equal; [repeat f_equal; lia|].
      apply map_ext. intros k. rewrite Nat2Z.inj_succ.
      replace (start st + Z.succ (Z.of_nat k) * (cs - ov))
        with (start st + cs - ov + Z.of_nat k * (cs - ov)) by ring.
      reflexivity.
Qed.

(** X5.  On a text that holds no period, exclamation mark, question mark
    or newline the boundary search finds nothing: the windows are cut at
    exactly [chunk_size], the start offsets are the multiples of
    [chunk_size - chunk_overlap], and chunk [k] is the stripped slice of
    [chunk_size] characters from offset [k * (chunk_size - chunk_overlap)]. *)
Theorem chunks_without_separator (text : str) (chunk_size chunk_overlap : Z) :
  forallb (fun c => negb (sentence_mark c)) text = true ->
  forall n,
    let starts := chunk_starts n text chunk_size chunk_overlap init in
    starts = arithmetic (chunk_size - chunk_overlap) (List.length starts)
    /\ chunks (iterate n text chunk_size chunk_overlap init)
       = map (fun s => strip (slice text s (s + chunk_size))) starts.
Proof.
  intros Hnone n starts.
  destruct (chunk_starts_without_separator text chunk_size chunk_overlap Hnone n init)
    as [H1 H2].
  fold starts in H1, H2. cbn [start chunks init app] in H1, H2.
  split.
  - rewrite H1 at 1. unfold arithmetic. apply map_ext. intros k. lia.
  - rewrite H2. rewrite H1 at 2. rewrite map_map. reflexivity.
Qed.

End chunker_more.

(** ** The embedding generator *)

Section embedding_more.
Import Py Embeddings Aux Samples.

Variable provider : nat -> embed_input -> result (list embedding).

Lemma generate_embedding_body_eq (text : str) (st : client_state) :
  generate_embedding_body provider text st
  = (attempt_result provider text (calls st), tick st).
Proof.
  unfold generate_embedding_body, attempt_result, sent. cbv zeta.
  destruct (provider _ _) as [[|d ?]|?]; reflexivity.
Qed.

(** The three attempts, spelled out. *)
Lemma generate_embedding_unfold (text : str) (st : client_state) :
  generate_embedding provider text st
  = match attempt_result provider text (calls st) with
    | Ok a => (Ok a, {| calls := S (calls st); sleeps := sleeps st |})
    | Raise _ =>
        match attempt_result provider text (S (calls st)) with
        | Ok a => (Ok a, {| calls := S (S (calls st));
                            sleeps := sleeps st ++ [2] |})
        | Raise _ =>
            match attempt_result provider text (S (S (calls st))) with
            | Ok a => (Ok a, {| calls := S (S (S (calls st)));
                                sleeps := sleeps st ++ [2; 2] |})
            | Raise e => (Raise (RetryError e),
                          {| calls := S (S (S (calls st)));
                             sleeps := sleeps st ++ [2; 2] |})
            end
        end
    end.
Proof.
  unfold generate_embedding, retry. cbn [Nat.sub attempts].
  rewrite !generate_embedding_body_eq.
  change (wait_exponential 1 2 10 1) with 2.
  change (wait_exponential 1 2 10 (1 + 1)) with 2.
  unfold tick, sleep. cbn [calls sleeps].
  destruct (attempt_result provider text (calls st)); [reflexivity|].
  destruct (attempt_result provider text (S (calls st))); [reflexivity|].
  rewrite <- app_assoc. cbn [app].
  destruct (attempt_result provider text (S (S (calls st)))); reflexivity.
Qed.

(** X6.  When [generate_embedding] raises, it raises the retry error, has
    sent exactly three requests, each of which failed, and has waited 2
    and 2 between them. *)
Theorem generate_embedding_failure_profile
    (text : str) (st st' : client_state) (e : exn) :
  generate_embedding provider text st = (Raise e, st') ->
  (exists last, e = RetryError last
                /\ attempt_result provider text (S (S (calls st))) = Raise last)
  /\ calls st' = S (S (S (calls st)))
  /\ sleeps st' = sleeps st ++ [2; 2]
  /\ is_ok (attempt_result provider text (calls st)) = false
  /\ is_ok (attempt_result provider text (S (calls st))) = false.
Proof.
  rewrite generate_embedding_unfold.
  destruct (attempt_result provider text (calls st)); [discriminate|].
  destruct (attempt_result provider text (S (calls st))); [discriminate|].
  destruct (attempt_result provider text (S (S (calls st)))) as [|last];
    [discriminate|].
  intros [= <- <-]. split; [exists last; split; reflexivity|].
  repeat split; reflexivity.
Qed.

(** X7.  When [generate_embedding] returns, the embedding is the first
    one of the response to the first successful request; that request is
    the first, second or third, every earlier one failed, and a wait of 2
    was made after each failure. *)
Theorem generate_embedding_success_profile
    (text : str) (st st' : client_state) (emb : embedding) :
  generate_embedding provider text st = (Ok emb, st') ->
  exists k,
    (k < 3)%nat
    /\ attempt_result provider text (calls st + k) = Ok emb
    /\ (forall j, (j < k)%nat ->
                  is_ok (attempt_result provider text (calls st + j)) = false)
    /\ calls st' = S (calls st + k)
    /\ sleeps st' = sleeps st ++ replicate k 2.
Proof.
  rewrite generate_embedding_unfold.
  destruct (attempt_result provider text (calls st)) as [a0|e0] eqn:E0.
  { intros [= <- <-]. exists 0%nat. rewrite Nat.add_0_r.
    split; [lia|]. split; [exact E0|]. split; [intros j Hj; lia|].
    split; [reflexivity|]. cbn [replicate]. rewrite app_nil_r. reflexivity. }
  destruct (attempt_result provider text (S (calls st))) as [a1|e1] eqn:E1.
  { intros [= <- <-]. exists 1%nat.
    replace (calls st + 1)%nat with (S (calls st)) by lia.
    split; [lia|]. split; [exact E1|]. split.
    - intros j Hj. replace j with 0%nat by lia.
      rewrite Nat.add_0_r, E0. reflexivity.
    - split; reflexivity. }
  destruct (attempt_result provider text (S (S (calls st)))) as [a2|e2] eqn:E2;
    [|discriminate].
  intros [= <- <-]. exists 2%nat.
  replace (calls st + 2)%nat with (S (S (calls st))) by lia.
  split; [lia|]. split; [exact E2|]. split.
  - intros j Hj.
    destruct j as [|[|j]]; [| |lia].
    + rewrite Nat.add_0_r, E0. reflexivity.
    + replace (calls st + 1)%nat with (S (calls st)) by lia.
      rewrite E1. reflexivity.
  - split; reflexivity.
Qed.

Lemma sent_is_slice (text : str) : sent text = slice text 0 30000.
Proof.
  unfold sent. destruct (Z.ltb_spec 30000 (len text)) as [Hlong|Hshort];
    [reflexivity|].
  rewrite slice_nonneg by lia. rewrite drop_0, take_ge; [reflexivity|].
  unfold len in Hshort. lia.
Qed.

(** X8.  Only the first 30000 characters of the text reach the provider:
    two texts that agree on them get the same result and leave the client
    in the same state. *)
Theorem generate_embedding_reads_prefix (text text' : str) (st : client_state) :
  slice text 0 30000 = slice text' 0 30000 ->
  generate_embedding provider text st = generate_embedding provider text' st.
Proof.
  intros Hsame.
  assert (Ha : forall n, attempt_result provider text n
                         = attempt_result provider text' n).
  { intros n. unfold attempt_result. rewrite !sent_is_slice, Hsame. reflexivity. }
  rewrite !generate_embedding_unfold, !Ha. reflexivity.
Qed.

(** X9.  [generate_embeddings_batch] sends no request when the list of
    texts is empty or the batch size is not positive: for a batch size of
    0 [range] raises, and otherwise the result is the empty list, so a
    negative batch size silently drops every text. *)
Theorem generate_embeddings_batch_no_request
    (texts : list str) (batch_size : Z) (st : client_state) :
  batch_size <= 0 \/ texts = [] ->
  generate_embeddings_batch provider texts batch_size st
  = (if batch_size =? 0
     then Raise (Exception "range() arg 3 must not be zero")
     else Ok [],
     st).
Proof.
  intros Hcase. unfold generate_embeddings_batch, py_range.
  destruct (Z.eqb_spec batch_size 0) as [->|Hne]; [reflexivity|].
  destruct (Z.ltb_spec batch_size 0) as [Hneg|Hpos]; [reflexivity|].
  destruct Hcase as [Hle| ->]; [lia|].
  cbn [List.length].
  replace (Z.to_nat ((Z.of_nat 0 + batch_size - 1) / batch_size)) with 0%nat.
  - reflexivity.
  - rewrite Z.div_small by lia. reflexivity.
Qed.

Lemma batch_loop_fails (texts : list str) (bs : Z) (e : exn) :
  forall j K j0 acc st,
    (j < K)%nat ->
    (forall n batch, (calls st <= n < calls st + j)%nat ->
                     is_ok (provider n (Many batch)) = true) ->
    (forall batch, provider (calls st + j) (Many batch) = Raise e) ->
    batch_loop provider (map (fun k => Z.of_nat k * bs) (seq j0 K)) texts bs acc st
    = (Raise e, {| calls := S (calls st + j); sleeps := sleeps st |}).
Proof.
  induction j as [|j IH]; intros K j0 acc st HK Hok Hfail;
    (destruct K as [|K]; [lia|]); cbn [seq map batch_loop].
  - rewrite Nat.add_0_r in Hfail. rewrite Hfail.
    unfold tick. rewrite Nat.add_0_r. reflexivity.
  - destruct (provider (calls st) (Many _)) as [data|e'] eqn:Hp.
    2:{ match type of Hp with
        | provider _ (Many ?b) = _ =>
            pose proof (Hok (calls st) b ltac:(lia)) as Hb
        end.
        rewrite Hp in Hb. discriminate. }
    rewrite (IH K (S j0) (acc ++ data) (tick st)); cbn [tick calls sleeps].
    + f_equal. f_equal. lia.
    + lia.
    + intros n batch Hn. apply Hok. lia.
    + intros batch. replace (S (calls st) + j)%nat with (calls st + S j)%nat by lia.
      apply Hfail.
Qed.

(** X10.  A batch is all or nothing: when the request for group [j]
    raises after the earlier groups succeeded, that exception is raised at
    once, without a retry and without the embeddings already received,
    after exactly [j + 1] requests. *)
Theorem generate_embeddings_batch_fails_whole
    (texts : list str) (batch_size : Z) (st : client_state) (j : nat) (e : exn) :
  0 < batch_size ->
  Z.of_nat j < (Z.of_nat (List.length texts) + batch_size - 1) / batch_size ->
  (forall n batch, (calls st <= n < calls st + j)%nat ->
                   is_ok (provider n (Many batch)) = true) ->
  (forall batch, provider (calls st + j) (Many batch) = Raise e) ->
  generate_embeddings_batch provider texts batch_size st
  = (Raise e, {| calls := S (calls st + j); sleeps := sleeps st |}).
Proof.
  intros Hbs Hj Hok Hfail. unfold generate_embeddings_batch, py_range.
  destruct (Z.eqb_spec batch_size 0); [lia|].
  destruct (Z.ltb_spec batch_size 0); [lia|].
  apply batch_loop_fails; [lia|exact Hok|exact Hfail].
Qed.

End embedding_more.

(** ** Vector search and storage *)

Section database_more.
Import Py Database Aux Samples.

Variable distance : list Q -> list Q -> float8.

(** X12.  The search returns the most similar documents: a document of
    the knowledge base whose similarity is above the threshold is either
    among the rows returned, or the limit was reached and every row
    returned is at least as similar as it. *)
Theorem search_returns_the_most_similar
    (q : list Q) (limit : Z) (threshold : float8) (d : Schema.db)
    (rows : list search_row) (k : Schema.kb_row) :
  search_similar_documents distance q limit threshold d = Ok rows ->
  k ∈ Schema.knowledge_base d ->
  SearchSpec.above threshold (similarity (select_row distance q k)) ->
  select_row distance q k ∈ rows
  \/ (Z.of_nat (List.length rows) = limit
      /\ Forall (fun r => SearchSpec.no_greater
                            (similarity (select_row distance q k)) (similarity r))
           rows).
Proof.
  intros Hs Hk Hsim. apply search_similar_documents_inv in Hs as [Hlim ->].
  set (dist := fun r => distance (Schema.embedding r) q).
  set (sorted := order_by dist (matching distance q threshold d)).
  assert (Hin : k ∈ sorted).
  { subst sorted. rewrite order_by_perm. apply matching_iff.
    split; [exact Hk|left; exact Hsim]. }
  assert (Hsorted : StronglySorted (by_key dist) (take (Z.to_nat limit) sorted
                                                  ++ drop (Z.to_nat limit) sorted)).
  { rewrite take_drop. apply order_by_sorted. }
  rewrite <- (take_drop (Z.to_nat limit) sorted) in Hin.
  apply elem_of_app in Hin as [Hin|Hin].
  - left. change (map ?f ?l) with (f <$> l). apply list_elem_of_fmap.
    exists k. split; [reflexivity|exact Hin].
  - right. change (map ?f ?l) with (f <$> l). split.
    + rewrite length_fmap, length_take.
      assert (Z.to_nat limit < List.length sorted)%nat; [|lia].
      destruct (Nat.lt_ge_cases (Z.to_nat limit) (List.length sorted)) as [|Hge];
        [assumption|].
      rewrite drop_ge in Hin by exact Hge. inversion Hin.
    + apply Forall_fmap, Forall_forall. intros r Hr.
      pose proof (StronglySorted_app_1_elem_of _ _ _ _ _ Hsorted Hr Hin) as Hle.
      unfold by_key in Hle. cbn [compose select_row similarity] in *.
      fold (dist k) in Hsim |- *. fold (dist r).
      destruct (dist k) as [dk|]; [|destruct threshold; destruct Hsim].
      apply float8_le_num in Hle as (x & -> & Hx).
      cbn [one_minus SearchSpec.no_greater]. lra.
Qed.

(** X13.  The number of rows returned is the smaller of the limit and
    the number of documents that pass the engine's test
    [1 - distance > threshold]; these are the documents whose similarity
    is above the threshold and, against a threshold that is a number, the
    documents whose distance is NaN.  A limit of 0 gives the empty
    list. *)
Theorem search_result_count
    (q : list Q) (limit : Z) (threshold : float8) (d : Schema.db)
    (rows : list search_row) :
  search_similar_documents distance q limit threshold d = Ok rows ->
  Z.of_nat (List.length rows)
  = Z.min limit (Z.of_nat (List.length (matching distance q threshold d)))
  /\ forall k,
       k ∈ matching distance q threshold d
       <-> k ∈ Schema.knowledge_base d
           /\ (SearchSpec.above threshold (similarity (select_row distance q k))
               \/ (distance (Schema.embedding k) q = NaN
                   /\ exists t, threshold = Num t)).
Proof.
  intros Hs. apply search_similar_documents_inv in Hs as [Hlim ->].
  split; [|intros k; apply matching_iff].
  rewrite length_map, length_take.
  rewrite (Permutation_length (order_by_perm _ _)). lia.
Qed.

(** X11.  [insert_document] keeps the character counts right: if every
    stored document carries the length of its content, so does every
    document after the call, whether the insert was accepted or refused;
    a refused insert leaves the storage exactly as it was, and an accepted
    one leaves every job row as it was. *)
Theorem insert_document_keeps_counts
    (insert_error : Schema.kb_row -> option exn)
    (source_url source_type filename : string) (content : str)
    (embedding : list Q) (metadata : option dict) (d : Schema.db) :
  counts_characters d ->
  let '(r, d') := insert_document insert_error source_url source_type filename
                    content embedding metadata d in
  counts_characters d'
  /\ Schema.job_status d' = Schema.job_status d
  /\ (is_ok r = false -> d' = d).
Proof.
  intros Hinv.
  destruct (insert_document_cases insert_error source_url source_type filename
              content embedding metadata d)
    as [(e & ->)|(doc_id & d' & row & -> & _ & Hct & _ & Hcc & Hkb & Hjs)].
  - split; [exact Hinv|]. split; reflexivity.
  - split; [|split; [exact Hjs|discriminate]].
    unfold counts_characters. rewrite Hkb. apply Forall_app. split; [exact Hinv|].
    constructor; [|constructor]. rewrite Hcc, Hct. reflexivity.
Qed.

End database_more.

(** ** Ingestion *)

(** Keeps the outcome of [ingest_document] in which the run [H] speaks
    of returned. *)
Ltac ingest_returns H :=
  revert H; rewrite ingest_document_unfold; cbv zeta; ingest_outcomes;
  unfold Aux.handled;
  try match goal with
      | |- context [match ?ue ?d ?t ?s None None ?m with Some _ => _ | None => _ end] =>
          destruct (ue d t s None None m)
      end;
  intros H; try discriminate.

(** Brings in what the [except] handler of the goal leaves behind. *)
Ltac handled_cases Hk Hc Hrep Hother Hout :=
  match goal with
  | |- context [Aux.handled ?ue ?fr ?t ?e ?d ?c ?w0] =>
      destruct (handled_facts ue fr t e d c w0) as (Hk & Hc & Hrep & Hother & Hout)
  end.

Section ingestion_more.
Import Py Database Tasks Aux Samples.

Variable parse_document : string -> result parsed.
Variable provider : nat -> Embeddings.embed_input -> result (list Embeddings.embedding).
Variable insert_error : Schema.kb_row -> option exn.
Variable track_error : Schema.db -> string -> string -> option exn.
Variable update_error :
  Schema.db -> string -> string -> option Z -> option dict -> option string
  -> option exn.
Variable future_repr : exn -> string.

Lemma generate_embedding_calls (text : str) (st c : Embeddings.client_state)
    (r : result Embeddings.embedding) :
  Embeddings.generate_embedding provider text st = (r, c) ->
  (Embeddings.calls st <= Embeddings.calls c <= Embeddings.calls st + 3)%nat.
Proof.
  rewrite generate_embedding_unfold.
  destruct (attempt_result provider _ _);
    [|destruct (attempt_result provider _ _);
      [|destruct (attempt_result provider _ _)]];
    intros [= <- <-]; cbn [Embeddings.calls]; lia.
Qed.

(** X14.  A run of [ingest_document] that returns hands back the
    identifier of the stored document (the text of the row's id), the
    file name, the source type, the length of the content and the status
    "success", and leaves the job row with status "success", progress 100
    and that same result as its [result_data]. *)
Theorem ingest_document_records_result (task_id source_url : string)
    (metadata : option dict) (w w' : world) (result : dict) :
  ingest_document parse_document provider insert_error track_error update_error
    future_repr task_id source_url metadata w = (Ok result, w') ->
  exists doc row,
    parse_document source_url = Ok doc
    /\ last (Schema.knowledge_base (store w')) = Some row
    /\ result = ingest_result doc (pretty (Schema.id row))
    /\ Schema.char_count row = len (markdown doc)
    /\ exists r, Schema.job_status (store w') !! task_id = Some r
                 /\ Schema.status r = "success"%string
                 /\ Schema.progress r = Some 100
                 /\ Schema.result_data r = Some result.
Proof.
  intros H. ingest_returns H. injection H as <- <-.
  destruct (tracked_row task_id source_url (store w)) as (r0 & Hr0 & _).
  eexists doc, _. split; [first [reflexivity|exact Hparse]|]. split.
  { cbn [store world_of mark_success job_updated with_row Schema.knowledge_base].
    apply last_snoc. }
  split; [reflexivity|]. split; [reflexivity|].
  unfold mark_success, job_updated, with_row. cbn [store world_of Schema.job_status].
  rewrite lookup_alter_eq, Hr0. cbn [fmap option_fmap option_map].
  eexists. split; [reflexivity|]. repeat split; reflexivity.
Qed.

(** X15.  A success does not clear an earlier error: after a run that
    returns, the job row's [error_message] is the one the row held before
    the run (and NULL if the task had no row). *)
Theorem ingest_document_keeps_old_error (task_id source_url : string)
    (metadata : option dict) (w w' : world) (result : dict) :
  ingest_document parse_document provider insert_error track_error update_error
    future_repr task_id source_url metadata w = (Ok result, w') ->
  exists r, Schema.job_status (store w') !! task_id = Some r
            /\ Schema.status r = "success"%string
            /\ Schema.error_message r
               = (Schema.job_status (store w) !! task_id) ≫= Schema.error_message.
Proof.
  intros H. ingest_returns H. injection H as <- <-.
  destruct (tracked_row task_id source_url (store w)) as (r0 & Hr0 & _ & Herr & _).
  unfold mark_success, job_updated, with_row. cbn [store world_of Schema.job_status].
  rewrite lookup_alter_eq, Hr0. cbn [fmap option_fmap option_map].
  eexists. split; [reflexivity|]. split; [reflexivity|exact Herr].
Qed.

(** X16.  A run of [ingest_document] touches no job row but its own:
    whatever the outcome, the row of every other task is as before. *)
Theorem ingest_document_other_jobs (task_id source_url : string)
    (metadata : option dict) (w : world) (other : string) :
  other <> task_id ->
  Schema.job_status
    (store (ingest_document parse_document provider insert_error track_error
              update_error future_repr task_id source_url metadata w).2) !! other
  = Schema.job_status (store w) !! other.
Proof.
  intros Hne.
  destruct (tracked_row task_id source_url (store w)) as (r0 & _ & _ & _ & Hframe).
  rewrite ingest_document_unfold. cbv zeta.
  ingest_outcomes;
    try (handled_cases Hk Hc Hrep Hother Hout; rewrite (Hother other Hne));
    cbn [snd store world_of]; unfold mark_success, job_updated, with_row;
    cbn [Schema.job_status];
    rewrite ?lookup_alter_ne by congruence;
    first [reflexivity|apply Hframe; exact Hne].
Qed.

(** X17.  The stored document holds the parsed content, the embedding
    and the merged metadata, in which a key supplied by the caller wins
    over the same key extracted from the document. *)
Theorem ingest_document_stores_merged_metadata (task_id source_url : string)
    (metadata : option dict) (w w' : world) (result : dict) :
  ingest_document parse_document provider insert_error track_error update_error
    future_repr task_id source_url metadata w = (Ok result, w') ->
  exists doc row,
    parse_document source_url = Ok doc
    /\ Schema.knowledge_base (store w')
       = Schema.knowledge_base (store w) ++ [row]
    /\ Schema.source_url row = source_url
    /\ Schema.content_markdown row = markdown doc
    /\ forall key,
         Schema.metadata row !! key
         = match default ∅ metadata !! key with
           | Some v => Some v
           | None => p_metadata doc !! key
           end.
Proof.
  intros H. ingest_returns H. injection H as <- <-.
  eexists doc, _. split; [first [reflexivity|exact Hparse]|].
  split; [reflexivity|].
  split; [reflexivity|]. split; [reflexivity|].
  intros key. cbn [ingest_row Schema.metadata].
  rewrite lookup_union.
  destruct (default ∅ metadata !! key), (p_metadata doc !! key); reflexivity.
Qed.

(** X18.  A run of [ingest_document] sends at most three requests to the
    embedding provider, and none when parsing fails. *)
Theorem ingest_document_requests (task_id source_url : string)
    (metadata : option dict) (w : world) :
  let w' := (ingest_document parse_document provider insert_error track_error
               update_error future_repr task_id source_url metadata w).2 in
  (Embeddings.calls (client w) <= Embeddings.calls (client w')
   <= Embeddings.calls (client w) + 3)%nat
  /\ (is_ok (parse_document source_url) = false -> client w' = client w).
Proof.
  intros w'. subst w'. rewrite ingest_document_unfold. cbv zeta.
  ingest_outcomes;
    try (handled_cases Hk Hc Hrep Hother Hout; rewrite Hc);
    cbn [snd client world_of is_ok];
    try (apply generate_embedding_calls in Hemb);
    (split; [lia|first [discriminate|reflexivity]]).
Qed.

(** One run of the task body: the progress reports are untouched, the
    knowledge base grows by at most one row and by one when the run
    returns, by none when it raises and the ledger refuses no UPDATE, and
    the character counts stay right. *)
Lemma ingest_document_step (task_id source_url : string)
    (metadata : option dict) (w : world) :
  let run := ingest_document parse_document provider insert_error track_error
               update_error future_repr task_id source_url metadata w in
  let before := List.length (Schema.knowledge_base (store w)) in
  let after := List.length (Schema.knowledge_base (store run.2)) in
  reported run.2 = reported w
  /\ (before + (if is_ok run.1 then 1 else 0) <= after <= before + 1)%nat
  /\ (never_refuses update_error ->
      after = (before + if is_ok run.1 then 1 else 0)%nat)
  /\ (counts_characters (store w) -> counts_characters (store run.2)).
Proof.
  intros run before after. subst run before after.
  rewrite ingest_document_unfold. cbv zeta.
  assert (Hgrown : forall row,
    List.length (Schema.knowledge_base
                   (with_row (tracked task_id source_url (store w)) row))
    = (List.length (Schema.knowledge_base (store w)) + 1)%nat).
  { intros row. cbn [with_row Schema.knowledge_base tracked].
    rewrite length_app. reflexivity. }
  assert (Hcount : forall row,
    Schema.char_count row = len (Schema.content_markdown row) ->
    counts_characters (store w) ->
    counts_characters (with_row (tracked task_id source_url (store w)) row)).
  { intros row Hrow Hinv. unfold counts_characters.
    cbn [with_row Schema.knowledge_base tracked].
    apply Forall_app. split; [exact Hinv|]. constructor; [exact Hrow|constructor]. }
  ingest_outcomes.
  - cbn [fst snd world_of store reported is_ok].
    split; [reflexivity|]. split; [lia|]. split; [intros _; lia|tauto].
  - handled_cases Hk Hc Hrep Hother Hout.
    assert (Hr : is_ok (handled update_error future_repr task_id e
                          (tracked task_id source_url (store w)) c w).1 = false)
      by (destruct Hout as [(-> & _)|(e' & -> & _)]; reflexivity).
    rewrite Hr, Hk. unfold counts_characters. rewrite Hk.
    cbn [tracked Schema.knowledge_base].
    split; [exact Hrep|]. split; [lia|]. split; [intros _; lia|tauto].
  - handled_cases Hk Hc Hrep Hother Hout.
    match goal with
    | |- context [is_ok (handled ?a1 ?a2 ?a3 ?a4 ?a5 ?a6 ?a7).1] =>
        assert (Hr : is_ok (handled a1 a2 a3 a4 a5 a6 a7).1 = false)
          by (destruct Hout as [(-> & _)|(e' & -> & _)]; reflexivity)
    end.
    rewrite Hr, Hk, Hgrown.
    split; [exact Hrep|]. split; [lia|].
    split; [intros Hnever; rewrite Hnever in Hdone; discriminate|].
    intros Hinv. unfold counts_characters. rewrite Hk.
    apply Hcount; [reflexivity|exact Hinv].
  - cbn [fst snd world_of store reported is_ok].
    change (Schema.knowledge_base (mark_success ?t ?r ?d))
      with (Schema.knowledge_base d).
    rewrite Hgrown.
    split; [reflexivity|]. split; [lia|]. split; [intros _; lia|].
    intros Hinv. apply Hcount; [reflexivity|exact Hinv].
  - handled_cases Hk Hc Hrep Hother Hout.
    match goal with
    | |- context [is_ok (handled ?a1 ?a2 ?a3 ?a4 ?a5 ?a6 ?a7).1] =>
        assert (Hr : is_ok (handled a1 a2 a3 a4 a5 a6 a7).1 = false)
          by (destruct Hout as [(-> & _)|(e' & -> & _)]; reflexivity)
    end.
    rewrite Hr, Hk. unfold counts_characters. rewrite Hk.
    cbn [tracked Schema.knowledge_base].
    split; [exact Hrep|]. split; [lia|]. split; [intros _; lia|tauto].
  - handled_cases Hk Hc Hrep Hother Hout.
    match goal with
    | |- context [is_ok (handled ?a1 ?a2 ?a3 ?a4 ?a5 ?a6 ?a7).1] =>
        assert (Hr : is_ok (handled a1 a2 a3 a4 a5 a6 a7).1 = false)
          by (destruct Hout as [(-> & _)|(e' & -> & _)]; reflexivity)
    end.
    rewrite Hr, Hk. unfold counts_characters. rewrite Hk.
    cbn [tracked Schema.knowledge_base].
    split; [exact Hrep|]. split; [lia|]. split; [intros _; lia|tauto].
Qed.

(** [ingest_document] keeps the character counts right: if every
    stored document carries the length of its content before a run, so
    does every document after it. *)
Lemma ingest_document_keeps_counts (task_id source_url : string)
    (metadata : option dict) (w : world) :
  counts_characters (store w) ->
  counts_characters
    (store (ingest_document parse_document provider insert_error track_error
              update_error future_repr task_id source_url metadata w).2).
Proof. apply ingest_document_step. Qed.

(** The runs of one application of the task, with [k] retries left. *)
Lemma run_task_step (k : nat) (task_id url : string) (metadata : option dict) :
  forall w,
    let run := run_task parse_document provider insert_error track_error
                 update_error future_repr k task_id url metadata w in
    let before := List.length (Schema.knowledge_base (store w)) in
    let after := List.length (Schema.knowledge_base (store run.2)) in
    reported run.2 = reported w
    /\ (before + (if is_ok run.1 then 1 else 0) <= after <= before + S k)%nat
    /\ (never_refuses update_error ->
        after = (before + if is_ok run.1 then 1 else 0)%nat)
    /\ (counts_characters (store w) -> counts_characters (store run.2)).
Proof.
  induction k as [|k IH]; intros w; cbn [run_task];
    pose proof (ingest_document_step task_id url metadata w) as Hstep;
    cbv zeta in Hstep;
    destruct (ingest_document parse_document provider insert_error track_error
                update_error future_repr task_id url metadata w)
      as [[result|e] w1];
    cbn [fst snd is_ok] in Hstep; destruct Hstep as (Hrep & Hlen & Hex & Hcnt);
    cbv zeta; cbn [fst snd is_ok].
  - split; [exact Hrep|]. split; [lia|]. split; [exact Hex|exact Hcnt].
  - split; [exact Hrep|]. split; [lia|]. split; [exact Hex|exact Hcnt].
  - split; [exact Hrep|]. split; [lia|]. split; [exact Hex|exact Hcnt].
  - destruct (IH w1) as (IH1 & IH2 & IH3 & IH4). cbv zeta in IH1, IH2, IH3, IH4.
    split; [rewrite IH1; exact Hrep|]. split; [lia|].
    split; [intros Hnever; rewrite (IH3 Hnever), (Hex Hnever); lia|].
    intros Hinv. apply IH4, Hcnt, Hinv.
Qed.

Variable uuid : world -> string.

Lemma apply_ingest_document_step (url : string) (metadata : option dict) (w : world) :
  let run := apply_ingest_document parse_document provider insert_error
               track_error update_error future_repr uuid url metadata w in
  let before := List.length (Schema.knowledge_base (store w)) in
  let after := List.length (Schema.knowledge_base (store run.2)) in
  reported run.2 = reported w
  /\ (before + (if is_ok run.1 then 1 else 0) <= after <= before + 4)%nat
  /\ (never_refuses update_error ->
      after = (before + if is_ok run.1 then 1 else 0)%nat)
  /\ (counts_characters (store w) -> counts_characters (store run.2)).
Proof. unfold apply_ingest_document. apply (run_task_step 3). Qed.

Lemma reports_cons (i n : Z) (k : nat) :
  reports i n (S k) = (i + 1, n) :: reports (i + 1) n k.
Proof.
  unfold reports. cbn [seq map]. rewrite <- seq_shift, map_map.
  f_equal; [f_equal; lia|]. apply map_ext. intros j. f_equal. lia.
Qed.

Lemma ingest_loop_world (urls : list string) (n : Z) (metadata : option dict) :
  forall i results w,
    let apply := apply_ingest_document parse_document provider insert_error
                   track_error update_error future_repr uuid in
    let run := ingest_loop future_repr apply update_state urls i n metadata
                 results w in
    let outs := outcomes apply update_state urls i n metadata w in
    let before := Z.of_nat (List.length (Schema.knowledge_base (store w))) in
    let after := Z.of_nat (List.length (Schema.knowledge_base (store run.2))) in
    reported run.2 = reported w ++ reports i n (List.length urls)
    /\ before + count_ok outs <= after <= before + 4 * Z.of_nat (List.length urls)
    /\ (never_refuses update_error -> after = before + count_ok outs)
    /\ (counts_characters (store w) -> counts_characters (store run.2)).
Proof.
  induction urls as [|url urls IH]; intros i results w apply run outs before after;
    subst run outs apply before after; cbn [ingest_loop outcomes].
  - cbn [snd List.length]. unfold reports, count_ok.
    cbn [seq map List.filter List.length]. rewrite app_nil_r.
    split; [reflexivity|]. split; [lia|]. split; [intros _; lia|tauto].
  - pose proof (apply_ingest_document_step url metadata w) as Hstep.
    cbv zeta in Hstep.
    destruct (apply_ingest_document parse_document provider insert_error
                track_error update_error future_repr uuid url metadata w)
      as [r w1] eqn:Hrun.
    cbn [fst snd] in Hstep. destruct Hstep as (Hrep & Hlen & Hex & Hcnt).
    match goal with
    | |- context [ingest_loop _ _ update_state urls ?i1 n metadata ?res1 ?w2] =>
        destruct (IH i1 res1 w2) as (IH1 & IH2 & IH3 & IH4)
    end.
    cbn [update_state store reported] in IH1, IH2, IH3, IH4.
    split; [|split; [|split]].
    + cbn [List.length].
      rewrite IH1, Hrep, reports_cons, <- app_assoc. reflexivity.
    + unfold count_ok in *. cbn [List.filter List.length].
      destruct r; cbn [is_ok List.length] in *; lia.
    + intros Hnever. specialize (IH3 Hnever). specialize (Hex Hnever).
      unfold count_ok in *. cbn [List.filter].
      destruct r; cbn [is_ok List.length] in *; lia.
    + intros Hinv. apply IH4, Hcnt, Hinv.
Qed.

(** X20.  [ingest_batch] reports its progress once after every item, in
    order: the reports added are (1, N), (2, N), ..., (N, N), whether the
    items succeed or fail. *)
Theorem ingest_batch_reports_progress (source_urls : list string)
    (metadata : option dict) (w : world) :
  let N := List.length source_urls in
  reported
    (ingest_batch future_repr
       (apply_ingest_document parse_document provider insert_error track_error
          update_error future_repr uuid)
       update_state source_urls metadata w).2
  = reported w ++ map (fun k => (Z.of_nat k + 1, Z.of_nat N)) (seq 0 N).
Proof.
  intros N. unfold ingest_batch.
  destruct (ingest_loop_world source_urls (Z.of_nat N) metadata 0
              {| total := Z.of_nat N; success := 0; failed := 0; documents := [] |} w)
    as (H & _ & _).
  cbv zeta in H. fold N. rewrite H. f_equal. unfold reports.
  apply map_ext. intros k. f_equal. lia.
Qed.


(** X22.  A batch keeps the character counts right: if every stored
    document carries the length of its content before the batch, so does
    every document after it. *)
Theorem ingest_batch_keeps_counts (source_urls : list string)
    (metadata : option dict) (w : world) :
  counts_characters (store w) ->
  counts_characters
    (store (ingest_batch future_repr
              (apply_ingest_document parse_document provider insert_error
                 track_error update_error future_repr uuid)
              update_state source_urls metadata w).2).
Proof.
  intros Hinv. unfold ingest_batch.
  set (N := Z.of_nat (List.length source_urls)).
  destruct (ingest_loop_world source_urls N metadata 0
              {| total := N; success := 0; failed := 0; documents := [] |} w)
    as (_ & _ & _ & H).
  apply H, Hinv.
Qed.

End ingestion_more.

Section batch_more.
Import Py Tasks Aux Samples.
Context {W : Type}.
Variable future_repr : exn -> string.
Variable apply_ingest : string -> option dict -> W -> result dict * W.
Variable report : Z -> Z -> W -> W.

(** X19.  Whatever the items do, the summary of [ingest_batch] adds up:
    [total] is the number of URLs, every item is counted once, as a
    success or as a failure, and [documents] has one entry per item. *)
Theorem ingest_batch_summary_adds_up (source_urls : list string)
    (metadata : option dict) (w : W) :
  let N := Z.of_nat (List.length source_urls) in
  let results :=
    (ingest_batch future_repr apply_ingest report source_urls metadata w).1 in
  total results = N
  /\ success results + failed results = N
  /\ 0 <= success results /\ 0 <= failed results
  /\ Z.of_nat (List.length (documents results)) = N.
Proof.
  intros N results. subst results. unfold ingest_batch.
  rewrite ingest_loop_spec. cbn [total success failed documents app].
  fold N.
  set (outs := outcomes apply_ingest report source_urls 0 N metadata w).
  pose proof (count_total outs) as Hsum.
  assert (Hlen : List.length outs = List.length source_urls)
    by apply outcomes_length.
  split; [reflexivity|]. split; [subst N; lia|].
  split; [unfold count_ok; lia|]. split; [unfold count_raised; lia|].
  rewrite length_zip_with. subst N. lia.
Qed.

End batch_more.

(** ** Search and question answering *)

Section queries_more.
Import Py Database Tasks Queries Aux Samples.

Variable provider : nat -> Embeddings.embed_input -> result (list Embeddings.embedding).
Variable distance : list Q -> list Q -> float8.
Variable completion : string -> list message -> result (str * Z).

Lemma join_length (sep : str) (bound : Z) (parts : list str) :
  Forall (fun p => len p <= bound) parts ->
  len (join sep parts)
  <= bound * Z.of_nat (List.length parts)
     + len sep * Z.max 0 (Z.of_nat (List.length parts) - 1).
Proof.
  pose proof (len_nonneg sep) as Hsep.
  induction parts as [|p rest IH]; intros Hall.
  { cbn [join List.length]. change (Z.max 0 (Z.of_nat 0 - 1)) with 0.
    unfold len. cbn [List.length]. lia. }
  apply Forall_cons in Hall as [Hp Hrest]. specialize (IH Hrest).
  destruct rest as [|q rest'].
  - cbn [join List.length]. change (Z.max 0 (Z.of_nat 1 - 1)) with 0. lia.
  - change (join sep (p :: q :: rest')) with (p ++ sep ++ join sep (q :: rest')).
    unfold len in *. rewrite !length_app, !Nat2Z.inj_add.
    cbn [List.length] in *. rewrite !Nat2Z.inj_succ in *.
    set (m := Z.of_nat (List.length rest')) in *.
    set (s := Z.of_nat (List.length sep)) in *.
    set (j := Z.of_nat (List.length (join sep (q :: rest')))) in *.
    replace (Z.max 0 (Z.succ m - 1)) with m in IH by lia.
    replace (Z.max 0 (Z.succ (Z.succ m) - 1)) with (m + 1) by lia.
    replace (bound * Z.succ (Z.succ m)) with (bound * Z.succ m + bound) by ring.
    replace (s * (m + 1)) with (s * m + s) by ring.
    lia.
Qed.

(** X24.  The context block is bounded: each passage contributes at most
    2000 characters and consecutive passages are 7 characters apart, so
    [n] retrieved documents give a context of at most
    [2000 * n + 7 * (n - 1)] characters, 10028 for the five documents a
    question retrieves at most. *)
Theorem context_is_bounded (search_results : list search_row) :
  let n := Z.of_nat (List.length search_results) in
  len (context_of search_results) <= 2000 * n + 7 * Z.max 0 (n - 1)
  /\ (n <= 5 -> len (context_of search_results) <= 10028).
Proof.
  intros n.
  assert (H : len (context_of search_results) <= 2000 * n + 7 * Z.max 0 (n - 1)).
  { unfold context_of.
    pose proof (join_length separator 2000 (context_parts search_results)) as Hj.
    unfold context_parts in *. rewrite length_map in Hj.
    change (len separator) with 7 in Hj. apply Hj.
    change (map ?f ?l) with (f <$> l).
    apply Forall_fmap, Forall_forall. intros r _. unfold compose, len.
    etransitivity; [apply slice_length_le|].
    unfold adjust_index.
    repeat match goal with
           | |- context [?a <? ?b] => destruct (Z.ltb_spec a b)
           end; lia. }
  split; [exact H|lia].
Qed.

Ltac rag_cases H qe c e Hemb rows Hsearch :=
  unfold rag_query, semantic_search in H;
  destruct (Embeddings.generate_embedding provider _ _) as [[qe|e] c] eqn:Hemb;
  [ destruct (search_similar_documents distance qe 5 (Num (3 # 5)) _)
      as [rows|e] eqn:Hsearch;
    [ destruct (completion _ _) as [[txt toks]|e] | ] | ].

(** X23.  An answer cites what was retrieved: its sources are the rows
    the search returned for the question's embedding with limit 5 and
    threshold 0.6, in rank order, so at most five of them; first come the
    sources whose similarity is a number, each above 0.6 and none more
    similar than the one before it, and after them the sources whose
    similarity is NaN.  The answer carries the question and the model it
    was asked with. *)
Theorem rag_query_sources (question : str) (session_id : option string)
    (model : string) (system_prompt : option str) (w w' : world) (a : answer) :
  rag_query provider distance completion question session_id model
    system_prompt w = (Ok a, w') ->
  Z.of_nat (List.length (sources a)) <= 5
  /\ (exists qe c rows,
        Embeddings.generate_embedding provider question (client w) = (Ok qe, c)
        /\ search_similar_documents distance qe 5 (Num (3 # 5)) (store w) = Ok rows
        /\ sources a = sources_of rows)
  /\ (exists numbers nans,
        sources a = numbers ++ nans
        /\ Forall (fun s => SearchSpec.above (Num (3 # 5)) (src_similarity s))
             numbers
        /\ StronglySorted
             (fun x y => SearchSpec.no_greater (src_similarity y) (src_similarity x))
             numbers
        /\ Forall (fun s => src_similarity s = NaN) nans)
  /\ Queries.question a = question
  /\ Queries.model a = model.
Proof.
  intros H. rag_cases H qe c e Hemb rows Hsearch; try discriminate.
  injection H as <- <-. cbn [sources Queries.question Queries.model].
  destruct (search_rows_split _ _ _ _ _ _ Hsearch)
    as (_ & Hlen & _ & numbers & nans & -> & Habove & Hsort & Hnan & _).
  unfold sources_of. change (map ?f ?l) with (f <$> l).
  split; [rewrite length_fmap; exact Hlen|].
  split.
  { exists qe, c, (numbers ++ nans).
    split; [first [reflexivity|exact Hemb]|].
    split; [first [reflexivity|exact Hsearch]|reflexivity]. }
  split; [|split; reflexivity].
  eexists _, _. split; [apply fmap_app|]. split.
  { apply Forall_fmap. eapply Forall_impl; [exact Habove|]. intros r Hr. exact Hr. }
  split.
  { eapply StronglySorted_fmap; [|exact Hsort]. intros x y Hxy. exact Hxy. }
  apply Forall_fmap. eapply Forall_impl; [exact Hnan|]. intros r Hr. exact Hr.
Qed.


(** X26.  Answering a question writes nothing: the knowledge base, the
    job ledger and the progress reports are as before, whatever the
    outcome, and at most three embedding requests are sent. *)
Theorem rag_query_writes_nothing (question : str) (session_id : option string)
    (model : string) (system_prompt : option str) (w : world) :
  let w' := (rag_query provider distance completion question session_id model
               system_prompt w).2 in
  store w' = store w
  /\ reported w' = reported w
  /\ (Embeddings.calls (client w) <= Embeddings.calls (client w')
      <= Embeddings.calls (client w) + 3)%nat.
Proof.
  intros w'. subst w'. unfold rag_query, semantic_search.
  rewrite generate_embedding_unfold.
  destruct (attempt_result provider _ _);
    [|destruct (attempt_result provider _ _);
      [|destruct (attempt_result provider _ _)]];
    try destruct (search_similar_documents distance _ 5 (Num (3 # 5)) (store w));
    try destruct (completion _ _) as [[? ?]|?];
    cbn [snd with_client store reported client Embeddings.calls];
    (split; [reflexivity|]; split; [reflexivity|lia]).
Qed.

End queries_more.

(** ** Download and parsing *)

Section parser_more.
Import Py Parser Aux Samples.

Lemma occurs_at_single (t : str) (c : ascii) (j : Z) :
  occurs_at t [c] j = true <-> 0 <= j /\ t !! Z.to_nat j = Some c.
Proof.
  unfold occurs_at.
  rewrite <- (Nat.add_0_r (Z.to_nat j)) at 2.
  rewrite <- lookup_drop.
  destruct (Z.leb_spec 0 j) as [Hj|Hj]; cbn [andb].
  - destruct (drop (Z.to_nat j) t) as [|d rest]; cbn [starts_with lookup list_lookup].
    + split; [discriminate|]. intros [_ H]. discriminate.
    + destruct (Ascii.eqb_spec c d) as [->|Hne].
      * split; [intros _; split; [exact Hj|reflexivity]|reflexivity].
      * split; [discriminate|]. intros [_ [= H]]. congruence.
  - split; [discriminate|]. intros [H _]. lia.
Qed.

(** The last dot of [base ++ "." ++ e], when [e] has none. *)
Lemma rfind_last_dot (base e : str) :
  "."%char ∉ e ->
  rfind (base ++ "."%char :: e) ["."%char] 0 (len (base ++ "."%char :: e))
  = len base.
Proof.
  intros Hno. set (t := base ++ "."%char :: e).
  assert (Hlen : len t = len base + 1 + len e).
  { subst t. unfold len. rewrite length_app. cbn [List.length]. lia. }
  pose proof (len_nonneg base) as Hb. pose proof (len_nonneg e) as He.
  assert (Hat : occurs_at t ["."%char] (len base) = true).
  { apply occurs_at_single. split; [exact Hb|].
    subst t. unfold len. rewrite Nat2Z.id.
    rewrite lookup_app_r by lia. rewrite Nat.sub_diag. reflexivity. }
  assert (Hlo : rfind_lo t 0 = 0) by reflexivity.
  assert (Hhi : rfind_hi t (len t) = len t).
  { unfold rfind_hi. destruct (Z.ltb_spec (len t) (len t)); [lia|].
    destruct (Z.ltb_spec (len t) 0); [lia|reflexivity]. }
  destruct (Z.eq_dec (rfind t ["."%char] 0 (len t)) (-1)) as [Hnone|Hfound].
  { pose proof (rfind_none t ["."%char] 0 (len t) Hnone (len base)) as H.
    rewrite Hlo, Hhi in H. change (len ["."%char]) with 1 in H.
    rewrite H in Hat by lia. discriminate. }
  destruct (rfind_found t ["."%char] 0 (len t) Hfound) as (H1 & H2 & H3 & H4).
  rewrite Hlo in H1. rewrite Hhi in H2, H4. change (len ["."%char]) with 1 in H2, H4.
  set (r := rfind t ["."%char] 0 (len t)) in *.
  destruct (Z.lt_trichotomy r (len base)) as [Hlt|[Heq|Hgt]]; [|exact Heq|].
  - rewrite (H4 (len base)) in Hat by lia. discriminate.
  - exfalso. apply Hno.
    apply occurs_at_single in H3 as [_ H3].
    subst t. rewrite lookup_app_r in H3 by (unfold len in *; lia).
    replace (Z.to_nat r - List.length base)%nat
      with (S (Z.to_nat r - List.length base - 1)) in H3
      by (unfold len in *; lia).
    cbn [lookup list_lookup] in H3.
    eapply list_elem_of_lookup_2. exact H3.
Qed.

Lemma lower_char_dot (c : ascii) : lower_char c = "."%char -> c = "."%char.
Proof.
  destruct c as [b0 b1 b2 b3 b4 b5 b6 b7].
  destruct b0, b1, b2, b3, b4, b5, b6, b7; vm_compute; congruence.
Qed.

Lemma lower_no_dot (t : str) : "."%char ∉ t -> "."%char ∉ lower t.
Proof.
  intros Hno Hin. unfold lower in Hin. apply list_elem_of_In, in_map_iff in Hin.
  destruct Hin as (c & Hc & Hin). apply lower_char_dot in Hc. subst c.
  apply Hno, list_elem_of_In, Hin.
Qed.

Lemma lstrip_dots_no_dot (t : str) : "."%char ∉ t -> lstrip_dots t = t.
Proof.
  destruct t as [|c t]; [reflexivity|]. intros Hno. cbn [lstrip_dots].
  destruct (Ascii.eqb_spec c ".") as [->|]; [|reflexivity].
  exfalso. apply Hno. apply list_elem_of_here.
Qed.

(** The suffix of a name is empty or a dot followed by one or more
    characters other than a dot. *)
Lemma path_suffix_shape (name : str) :
  path_suffix name = []
  \/ exists e, path_suffix name = "."%char :: e /\ e <> [] /\ ("."%char ∉ e).
Proof.
  unfold path_suffix. cbv zeta.
  set (i := rfind name ["."%char] 0 (len name)).
  destruct (Z.ltb_spec 0 i) as [Hpos|]; [|left; reflexivity].
  destruct (Z.ltb_spec i (len name - 1)) as [Hin|]; [|left; reflexivity].
  right. cbn [andb].
  assert (Hfound : i <> -1) by lia.
  destruct (rfind_found name ["."%char] 0 (len name) Hfound) as (_ & _ & H3 & H4).
  fold i in H3, H4. change (len ["."%char]) with 1 in H4.
  assert (Hhi : rfind_hi name (len name) = len name).
  { unfold rfind_hi. destruct (Z.ltb_spec (len name) (len name)); [lia|].
    destruct (Z.ltb_spec (len name) 0); [lia|reflexivity]. }
  rewrite Hhi in H4.
  apply occurs_at_single in H3 as [_ H3].
  rewrite slice_nonneg by lia.
  rewrite take_ge by (rewrite length_drop; unfold len; lia).
  exists (drop (S (Z.to_nat i)) name).
  split; [|split].
  - apply drop_S. exact H3.
  - intros Hnil. apply (f_equal (@List.length ascii)) in Hnil.
    rewrite length_drop in Hnil. cbn [List.length] in Hnil.
    unfold len in Hin. lia.
  - intros Hdot. apply list_elem_of_lookup_1 in Hdot as [k Hk].
    rewrite lookup_drop in Hk.
    assert (Hk' : (S (Z.to_nat i) + k < List.length name)%nat)
      by (eapply lookup_lt_Some; exact Hk).
    assert (Hocc : occurs_at name ["."%char] (Z.of_nat (S (Z.to_nat i) + k)) = true).
    { apply occurs_at_single. split; [lia|]. rewrite Nat2Z.id. exact Hk. }
    rewrite H4 in Hocc by (unfold len; lia). discriminate.
Qed.

(** X27.  The source type derived from a file name is never empty and
    never contains a dot: it is the lower-cased extension without its
    dot, or "unknown" when the name has no extension. *)
Theorem source_type_of_shape (filename : str) :
  source_type_of filename <> []
  /\ ("."%char ∉ source_type_of filename)
  /\ (path_suffix filename = [] -> source_type_of filename = lit "unknown").
Proof.
  unfold source_type_of. cbv zeta.
  destruct (path_suffix_shape filename) as [->|(e & -> & Hne & Hno)].
  - cbn [lower map lstrip_dots]. split; [discriminate|]. split; [|reflexivity].
    intros Hin. vm_compute in Hin. apply list_elem_of_In in Hin.
    cbn in Hin. intuition discriminate.
  - change (lower ("."%char :: e)) with ("."%char :: lower e).
    cbn [lstrip_dots]. rewrite Ascii.eqb_refl.
    pose proof (lower_no_dot e Hno) as Hlow.
    rewrite (lstrip_dots_no_dot _ Hlow).
    assert (Hne' : lower e <> []).
    { destruct e; [congruence|discriminate]. }
    destruct (lower e) as [|c rest] eqn:E; [congruence|].
    split; [discriminate|]. split; [exact Hlow|discriminate].
Qed.

Lemma path_suffix_append (base e : str) :
  base <> [] -> e <> [] -> ("."%char ∉ e) ->
  path_suffix (base ++ "."%char :: e) = "."%char :: e.
Proof.
  intros Hbase He Hno. unfold path_suffix. cbv zeta.
  rewrite (rfind_last_dot base e Hno).
  assert (Hlen : len (base ++ "."%char :: e) = len base + 1 + len e).
  { unfold len. rewrite length_app. cbn [List.length]. lia. }
  assert (Hb : 0 < len base) by (destruct base; [congruence|unfold len; cbn; lia]).
  assert (Hel : 0 < len e) by (destruct e; [congruence|unfold len; cbn; lia]).
  destruct (Z.ltb_spec 0 (len base)); [|lia].
  destruct (Z.ltb_spec (len base) (len (base ++ "."%char :: e) - 1)); [|lia].
  cbn [andb]. rewrite slice_nonneg by lia.
  replace (Z.to_nat (len base)) with (List.length base) by (unfold len; lia).
  rewrite drop_app_length.
  apply take_ge. rewrite Hlen. unfold len. cbn [List.length]. lia.
Qed.

Lemma ext_for_cases (content_type : str) :
  ext_for content_type = "."%char :: lit "pdf"
  \/ ext_for content_type = "."%char :: lit "docx"
  \/ ext_for content_type = "."%char :: lit "html".
Proof.
  unfold ext_for. repeat case_decide; auto.
Qed.

(** X28.  The file name [download_file] settles on always contains a
    dot: a name that has one is kept, and any other gets the extension
    chosen from the content type. *)
Theorem detected_filename_has_dot (url_name : str) (content_type : option str) :
  has_dot (detected_filename url_name content_type) = true
  /\ (has_dot url_name = true ->
      detected_filename url_name content_type = url_name).
Proof.
  unfold detected_filename. cbv zeta.
  set (base := match url_name with [] => lit "document" | _ => url_name end).
  destruct (has_dot base) eqn:Hdot; cbn [negb].
  - split; [exact Hdot|]. intros _. subst base.
    destruct url_name; [discriminate|reflexivity].
  - split.
    + unfold has_dot. rewrite existsb_app. apply orb_true_iff. right.
      destruct (ext_for_cases (before_semicolon (default [] content_type)))
        as [->|[->| ->]]; reflexivity.
    + intros Hu. subst base. destruct url_name; [discriminate|congruence].
Qed.

(** X30.  A download whose URL name has no dot gets its source type from
    the content type alone, read up to the first semicolon: "docx" for
    the word-processing content type, "html" for text/html and "pdf" for
    every other one, a missing header included; the file name is the URL
    name, or "document" when that is empty, followed by a dot and that
    type. *)
Theorem source_type_of_download (url_name : str) (content_type : option str) :
  has_dot url_name = false ->
  let declared := before_semicolon (default [] content_type) in
  let base := match url_name with [] => lit "document" | _ => url_name end in
  let source_type := source_type_of (detected_filename url_name content_type) in
  source_type
  = (if decide (declared
                = lit "application/vnd.openxmlformats-officedocument.wordprocessingml.document")
     then lit "docx"
     else if decide (declared = lit "text/html") then lit "html"
     else lit "pdf")
  /\ detected_filename url_name content_type = base ++ "."%char :: source_type.
Proof.
  intros Hnodot declared base source_type. subst source_type.
  unfold detected_filename. cbv zeta. fold base. fold declared.
  assert (Hbase : has_dot base = false).
  { subst base. destruct url_name; [reflexivity|exact Hnodot]. }
  assert (Hne : base <> []) by (subst base; destruct url_name; discriminate).
  rewrite Hbase. cbn [negb].
  assert (Hsrc : forall e, e <> [] -> ("."%char ∉ e) -> lower e = e ->
                           source_type_of (base ++ "."%char :: e) = e).
  { intros e He Hno Hlow. unfold source_type_of. cbv zeta.
    rewrite (path_suffix_append base e Hne He Hno).
    change (lower ("."%char :: e)) with ("."%char :: lower e).
    rewrite Hlow. cbn [lstrip_dots]. rewrite Ascii.eqb_refl.
    rewrite (lstrip_dots_no_dot e Hno). destruct e; [congruence|reflexivity]. }
  assert (Hpdf : source_type_of (base ++ "."%char :: lit "pdf") = lit "pdf").
  { apply Hsrc; [discriminate| |reflexivity].
    intros Hin; apply list_elem_of_In in Hin; cbn in Hin; intuition discriminate. }
  assert (Hdocx : source_type_of (base ++ "."%char :: lit "docx") = lit "docx").
  { apply Hsrc; [discriminate| |reflexivity].
    intros Hin; apply list_elem_of_In in Hin; cbn in Hin; intuition discriminate. }
  assert (Hhtml : source_type_of (base ++ "."%char :: lit "html") = lit "html").
  { apply Hsrc; [discriminate| |reflexivity].
    intros Hin; apply list_elem_of_In in Hin; cbn in Hin; intuition discriminate. }
  unfold ext_for.
  destruct (decide (declared = lit "application/pdf")) as [Hp|Hp].
  { change (lit ".pdf") with ("."%char :: lit "pdf"). rewrite Hpdf.
    split; [|reflexivity].
    destruct (decide (declared = _)) as [Hd|Hd];
      [exfalso; rewrite Hp in Hd; vm_compute in Hd; discriminate|].
    destruct (decide (declared = _)) as [Hh|Hh];
      [exfalso; rewrite Hp in Hh; vm_compute in Hh; discriminate|].
    reflexivity. }
  destruct (decide (declared = _)) as [Hd|Hd].
  { change (lit ".docx") with ("."%char :: lit "docx"). rewrite Hdocx.
    split; reflexivity. }
  destruct (decide (declared = _)) as [Hh|Hh].
  { change (lit ".html") with ("."%char :: lit "html"). rewrite Hhtml.
    split; reflexivity. }
  change (lit ".pdf") with ("."%char :: lit "pdf"). rewrite Hpdf.
  split; reflexivity.
Qed.

Variable url_name : string -> str.
Variable path_name : string -> str.
Variable http_get : string -> result response.
Variable mktemp : gset string -> str -> string.
Variable write_error : string -> option exn.
Variable convert : string -> result conversion.

(** X29.  What [parse_document] does to the files, provided the
    temporary file gets a name not yet in use.  For a local path, for a
    download that fails, and for a download that was written to the
    temporary file, the set of existing files after the call is the set
    before it, whether the conversion succeeds or fails: the downloaded
    file is removed and none of the caller's is.  When writing the
    download to the temporary file raises, the call raises that
    exception and the temporary file stays behind. *)
Theorem parse_document_files (source : string) (fs : gset string) :
  (forall suffix, mktemp fs suffix ∉ fs) ->
  let run := parse_document url_name path_name http_get mktemp write_error
               convert source fs in
  (is_url source = false -> run.2 = fs)
  /\ (forall e, http_get source = Raise e -> run.2 = fs)
  /\ (forall resp,
        is_url source = true -> http_get source = Ok resp ->
        let tmp :=
          mktemp fs
            (path_suffix
               (detected_filename (url_name source) (content_type resp))) in
        match write_error tmp with
        | None => run.2 = fs
        | Some e => run = (Raise e, fs ∪ {[tmp]}) /\ tmp ∉ fs
        end).
Proof.
  intros Hfresh run. subst run. unfold parse_document, download_file.
  split; [intros ->; reflexivity|].
  split.
  { intros e He. destruct (is_url source); [|reflexivity].
    rewrite He. reflexivity. }
  intros resp -> ->. cbv zeta.
  match goal with
  | |- context [mktemp fs ?sfx] =>
      pose proof (Hfresh sfx) as Hnew; set (tmp := mktemp fs sfx) in *
  end.
  destruct (write_error tmp) as [e|]; [split; [reflexivity|exact Hnew]|].
  cbn [snd]. case_decide as Hin.
  - apply set_eq. intros x.
    rewrite elem_of_difference, elem_of_union, elem_of_singleton.
    split.
    + intros [[Hx|Hx] Hne]; [exact Hx|contradiction].
    + intros Hx. split; [left; exact Hx|]. intros ->. exact (Hnew Hx).
  - exfalso. apply Hin. apply elem_of_union. right.
    apply elem_of_singleton. reflexivity.
Qed.

End parser_more.

(** ** The further properties at concrete inputs *)

Section more_instances.
Import Py Chunker Embeddings Database Tasks Aux Samples.

Lemma chunk_starts_increase_with_room_witness :
  0 <= 10 /\ 10 < 50 /\ 10 + int_fifth 50 < 50 + 2
  /\ forall n, increasing (chunk_starts n sample_text 50 10 init).
Proof.
  assert (H1 : 0 <= 10) by lia. assert (H2 : 10 < 50) by lia.
  assert (H3 : 10 + int_fifth 50 < 50 + 2) by (vm_compute; reflexivity).
  split; [exact H1|]. split; [exact H2|]. split; [exact H3|].
  apply (chunk_starts_increase_with_room sample_text 50 10 H1 H2 H3).
Defined.

Lemma chunk_text_returns_with_room_witness :
  0 <= 10 /\ 10 < 50 /\ 10 + int_fifth 50 < 50 + 2
  /\ exists r, chunk_text (S (Z.to_nat (len sample_text))) sample_text 50 10 = Some r.
Proof.
  assert (H1 : 0 <= 10) by lia. assert (H2 : 10 < 50) by lia.
  assert (H3 : 10 + int_fifth 50 < 50 + 2) by (vm_compute; reflexivity).
  split; [exact H1|]. split; [exact H2|]. split; [exact H3|].
  apply (chunk_text_returns_with_room sample_text 50 10 H1 H2 H3).
Defined.

Lemma window_end_range_witness :
  0 <= 0 /\ 0 <= 50
  /\ 0 + 50 - Z.max 0 (int_fifth 50 - 2) <= window_end sample_text 50 0 <= 0 + 50.
Proof.
  assert (H1 : 0 <= 0) by lia. assert (H2 : 0 <= 50) by lia.
  split; [exact H1|]. split; [exact H2|].
  apply (window_end_range sample_text 50 0 H1 H2).
Defined.

Lemma loop_chunks_are_trimmed_witness :
  50 < len sample_text
  /\ (forall n, Forall trimmed (chunks (iterate n sample_text 50 10 init)))
  /\ (forall fuel r, chunk_text fuel sample_text 50 10 = Some r -> Forall trimmed r).
Proof.
  assert (H : 50 < len sample_text) by (vm_compute; reflexivity).
  split; [exact H|]. apply (loop_chunks_are_trimmed sample_text 50 10 H).
Defined.

Lemma chunks_without_separator_witness :
  forallb (fun c => negb (sentence_mark c)) plain_text = true
  /\ forall n,
       let starts := chunk_starts n plain_text 10 2 init in
       starts = arithmetic (10 - 2) (List.length starts)
       /\ chunks (iterate n plain_text 10 2 init)
          = map (fun s => strip (slice plain_text s (s + 10))) starts.
Proof.
  assert (H : forallb (fun c => negb (sentence_mark c)) plain_text = true)
    by (vm_compute; reflexivity).
  split; [exact H|]. apply (chunks_without_separator plain_text 10 2 H).
Defined.

Lemma generate_embedding_failure_profile_witness :
  exists e st',
    generate_embedding failing_provider (lit "hello") fresh_client = (Raise e, st')
    /\ calls st' = 3%nat /\ sleeps st' = [2; 2].
Proof.
  eexists _, _. 
  assert (H : generate_embedding failing_provider (lit "hello") fresh_client
              = (Raise (RetryError (Exception "provider unavailable")),
                 {| calls := 3; sleeps := [2; 2] |}))
    by (vm_compute; reflexivity).
  split; [exact H|].
  destruct (generate_embedding_failure_profile failing_provider _ _ _ _ H)
    as (_ & H1 & H2 & _).
  split; [exact H1|exact H2].
Defined.

Lemma generate_embedding_success_profile_witness :
  exists emb st',
    generate_embedding flaky_provider (lit "hello") fresh_client = (Ok emb, st')
    /\ exists k, (k < 3)%nat /\ calls st' = S (calls fresh_client + k)
                 /\ sleeps st' = sleeps fresh_client ++ replicate k 2.
Proof.
  eexists _, _.
  assert (H : generate_embedding flaky_provider (lit "hello") fresh_client
              = (Ok [1%Q], {| calls := 2; sleeps := [2] |}))
    by (vm_compute; reflexivity).
  split; [exact H|].
  destruct (generate_embedding_success_profile flaky_provider _ _ _ _ H)
    as (k & Hk & _ & _ & H1 & H2).
  exists k. split; [exact Hk|]. split; [exact H1|exact H2].
Defined.

Lemma slice_long_text (c : ascii) :
  slice (long_text c) 0 30000 = repeat "a"%char (Z.to_nat 30000).
Proof.
  unfold long_text. rewrite slice_nonneg by lia.
  replace (Z.to_nat (30000 - 0)) with (Z.to_nat 30000) by (f_equal; lia).
  change (Z.to_nat 0) with 0%nat. rewrite drop_0.
  generalize (Z.to_nat 30000). intros n.
  rewrite <- (repeat_length "a"%char n) at 1. apply take_app_length.
Qed.

Lemma generate_embedding_reads_prefix_witness :
  slice (long_text "b") 0 30000 = slice (long_text "c") 0 30000
  /\ generate_embedding length_provider (long_text "b") fresh_client
     = generate_embedding length_provider (long_text "c") fresh_client.
Proof.
  assert (H : slice (long_text "b") 0 30000 = slice (long_text "c") 0 30000)
    by (rewrite !slice_long_text; reflexivity).
  split; [exact H|].
  apply (generate_embedding_reads_prefix length_provider _ _ fresh_client H).
Defined.

Lemma generate_embeddings_batch_no_request_witness :
  (-1 <= 0 \/ three_texts = [])
  /\ generate_embeddings_batch length_provider three_texts (-1) fresh_client
     = (Ok [], fresh_client).
Proof.
  assert (H : -1 <= 0 \/ three_texts = []) by (left; lia).
  split; [exact H|].
  apply (generate_embeddings_batch_no_request length_provider three_texts (-1)
           fresh_client H).
Defined.

Lemma generate_embeddings_batch_fails_whole_witness :
  0 < 1
  /\ Z.of_nat 1 < (Z.of_nat (List.length three_texts) + 1 - 1) / 1
  /\ generate_embeddings_batch second_fails three_texts 1 fresh_client
     = (Raise (Exception "provider unavailable"),
        {| calls := 2; sleeps := [] |}).
Proof.
  assert (H1 : 0 < 1) by lia.
  assert (H2 : Z.of_nat 1 < (Z.of_nat (List.length three_texts) + 1 - 1) / 1)
    by (vm_compute; reflexivity).
  split; [exact H1|]. split; [exact H2|].
  apply (generate_embeddings_batch_fails_whole second_fails three_texts 1
           fresh_client 1 (Exception "provider unavailable") H1 H2).
  - intros n batch Hn. cbn [calls fresh_client] in Hn.
    destruct n as [|n]; [reflexivity|lia].
  - intros batch. reflexivity.
Defined.

Lemma insert_document_keeps_counts_witness :
  counts_characters one_job_db
  /\ counts_characters
       (insert_document (fun _ => None) "https://x/doc.pdf" "pdf" "doc.pdf"
          (lit "Some text.") [1%Q] None one_job_db).2.
Proof.
  assert (H : counts_characters one_job_db) by constructor.
  split; [exact H|].
  pose proof (insert_document_keeps_counts (fun _ => None) "https://x/doc.pdf"
                "pdf" "doc.pdf" (lit "Some text.") [1%Q] None one_job_db H) as Hk.
  destruct (insert_document _ _ _ _ _ _ _ _) as [r d']. exact (proj1 Hk).
Defined.

Lemma search_returns_the_most_similar_witness :
  exists rows,
    search_similar_documents sample_distance [] 1 (Num (1 # 2)) three_documents
    = Ok rows
    /\ sample_row 2 (2 # 10) ∈ Schema.knowledge_base three_documents
    /\ SearchSpec.above (Num (1 # 2))
         (similarity (select_row sample_distance [] (sample_row 2 (2 # 10))))
    /\ (select_row sample_distance [] (sample_row 2 (2 # 10)) ∈ rows
        \/ (Z.of_nat (List.length rows) = 1
            /\ Forall (fun r => SearchSpec.no_greater
                                  (similarity (select_row sample_distance []
                                                 (sample_row 2 (2 # 10))))
                                  (similarity r)) rows)).
Proof.
  eexists.
  assert (H1 : search_similar_documents sample_distance [] 1 (Num (1 # 2))
                 three_documents
               = Ok [select_row sample_distance [] (sample_row 1 (1 # 10))])
    by reflexivity.
  assert (H2 : sample_row 2 (2 # 10) ∈ Schema.knowledge_base three_documents)
    by (apply list_elem_of_further, list_elem_of_here).
  assert (H3 : SearchSpec.above (Num (1 # 2))
                 (similarity (select_row sample_distance []
                                (sample_row 2 (2 # 10)))))
    by reflexivity.
  split; [exact H1|]. split; [exact H2|]. split; [exact H3|].
  apply (search_returns_the_most_similar sample_distance [] 1 (Num (1 # 2))
           three_documents _ _ H1 H2 H3).
Defined.

Lemma search_result_count_witness :
  exists rows,
    search_similar_documents sample_distance [1%Q] 5 (Num (7 # 10))
      zero_vector_library = Ok rows
    /\ List.length (matching sample_distance [1%Q] (Num (7 # 10))
                      zero_vector_library) = 2%nat
    /\ Z.of_nat (List.length rows) = Z.min 5 2.
Proof.
  eexists.
  assert (H1 : search_similar_documents sample_distance [1%Q] 5 (Num (7 # 10))
                 zero_vector_library
               = Ok [select_row sample_distance [1%Q] (sample_row 1 (1 # 10));
                     select_row sample_distance [1%Q] (sample_row 2 0)])
    by reflexivity.
  split; [exact H1|]. split; [reflexivity|].
  apply (search_result_count sample_distance [1%Q] 5 (Num (7 # 10))
           zero_vector_library _ H1).
Defined.

Lemma ingest_document_records_result_witness :
  exists result w',
    ingest_document sample_parse length_provider (fun _ => None) no_track_error
      no_update_error sample_future_repr "task-1" "https://x/a.pdf" None
      sample_world = (Ok result, w')
    /\ exists r, Schema.job_status (store w') !! "task-1" = Some r
                 /\ Schema.status r = "success"%string
                 /\ Schema.progress r = Some 100
                 /\ Schema.result_data r = Some result.
Proof.
  destruct (ingest_document sample_parse length_provider (fun _ => None)
              no_track_error no_update_error sample_future_repr "task-1"
              "https://x/a.pdf" None sample_world) as [[result|e] w'] eqn:H;
    [|exfalso; vm_compute in H; discriminate].
  exists result, w'. split; [reflexivity|].
  destruct (ingest_document_records_result sample_parse length_provider
              (fun _ => None) no_track_error no_update_error sample_future_repr
              "task-1" "https://x/a.pdf" None sample_world w'
              result H) as (doc & row & _ & _ & _ & _ & Hr).
  exact Hr.
Defined.

Lemma ingest_document_keeps_old_error_witness :
  exists result w',
    ingest_document sample_parse length_provider (fun _ => None) no_track_error
      no_update_error sample_future_repr "task-1" "https://x/a.pdf" None
      retry_world = (Ok result, w')
    /\ exists r, Schema.job_status (store w') !! "task-1" = Some r
                 /\ Schema.status r = "success"%string
                 /\ Schema.error_message r = Some "download failed"%string.
Proof.
  destruct (ingest_document sample_parse length_provider (fun _ => None)
              no_track_error no_update_error sample_future_repr "task-1"
              "https://x/a.pdf" None retry_world) as [[result|e] w'] eqn:H;
    [|exfalso; vm_compute in H; discriminate].
  exists result, w'. split; [reflexivity|].
  destruct (ingest_document_keeps_old_error sample_parse length_provider
              (fun _ => None) no_track_error no_update_error sample_future_repr
              "task-1" "https://x/a.pdf" None retry_world w'
              result H) as (r & H1 & H2 & H3).
  exists r. split; [exact H1|]. split; [exact H2|]. rewrite H3. reflexivity.
Defined.

Lemma ingest_document_other_jobs_witness :
  "task-1"%string <> "task-2"%string
  /\ Schema.job_status
       (store (ingest_document sample_parse length_provider (fun _ => None)
                 no_track_error success_refused sample_future_repr
                 "task-2" "https://x/a.pdf" None retry_world).2) !! "task-1"
     = Some failed_job.
Proof.
  assert (H : "task-1"%string <> "task-2"%string) by discriminate.
  split; [exact H|].
  rewrite (ingest_document_other_jobs sample_parse length_provider (fun _ => None)
             no_track_error success_refused sample_future_repr
             "task-2" "https://x/a.pdf" None retry_world "task-1" H).
  reflexivity.
Defined.

Lemma ingest_document_stores_merged_metadata_witness :
  exists result w',
    ingest_document titled_parse length_provider (fun _ => None) no_track_error
      no_update_error sample_future_repr "task-1" "https://x/a.pdf"
      (Some caller_metadata) sample_world = (Ok result, w')
    /\ exists row,
         Schema.knowledge_base (store w') = [row]
         /\ Schema.metadata row !! "title" = Some (VStr "From the caller").
Proof.
  destruct (ingest_document titled_parse length_provider (fun _ => None)
              no_track_error no_update_error sample_future_repr "task-1"
              "https://x/a.pdf" (Some caller_metadata) sample_world)
    as [[result|e] w'] eqn:H; [|exfalso; vm_compute in H; discriminate].
  exists result, w'. split; [reflexivity|].
  destruct (ingest_document_stores_merged_metadata titled_parse length_provider
              (fun _ => None) no_track_error no_update_error sample_future_repr
              "task-1" "https://x/a.pdf" (Some caller_metadata)
              sample_world w' result H) as (doc & row & _ & Hkb & _ & _ & Hmeta).
  exists row. split; [exact Hkb|]. rewrite Hmeta. reflexivity.
Defined.

Lemma ingest_batch_keeps_counts_witness :
  counts_characters (store sample_world)
  /\ counts_characters
       (store (ingest_batch sample_future_repr
                 (apply_ingest_document sample_parse length_provider
                    (fun _ => None) no_track_error success_refused
                    sample_future_repr sample_uuid)
                 update_state sample_urls None sample_world).2).
Proof.
  assert (H : counts_characters (store sample_world)) by constructor.
  split; [exact H|].
  apply (ingest_batch_keeps_counts sample_parse length_provider (fun _ => None)
           no_track_error success_refused sample_future_repr
           sample_uuid sample_urls None sample_world H).
Defined.

Lemma rag_query_sources_witness :
  exists a w',
    Queries.rag_query length_provider sample_distance sample_completion
      (lit "What is X?") None "gpt-4o" None zero_vector_world = (Ok a, w')
    /\ Z.of_nat (List.length (Queries.sources a)) <= 5
    /\ map Queries.src_similarity (Queries.sources a) = [Num (9 # 10); NaN]
    /\ exists numbers nans,
         Queries.sources a = numbers ++ nans
         /\ Forall (fun s => SearchSpec.above (Num (3 # 5))
                               (Queries.src_similarity s)) numbers
         /\ Forall (fun s => Queries.src_similarity s = NaN) nans.
Proof.
  destruct (Queries.rag_query length_provider sample_distance sample_completion
              (lit "What is X?") None "gpt-4o" None zero_vector_world)
    as [[a|e] w'] eqn:H; [|exfalso; vm_compute in H; discriminate].
  exists a, w'. split; [reflexivity|].
  destruct (rag_query_sources length_provider sample_distance sample_completion
              (lit "What is X?") None "gpt-4o" None zero_vector_world w' a H)
    as (H1 & _ & (numbers & nans & H2 & H3 & _ & H4) & _).
  split; [exact H1|]. split.
  { vm_compute in H. injection H as <- _. reflexivity. }
  exists numbers, nans. split; [exact H2|]. split; [exact H3|exact H4].
Defined.


Lemma parse_document_files_witness :
  (forall suffix, sample_mktemp ∅ suffix ∉ (∅ : gset string))
  /\ (Parser.parse_document (fun _ => lit "page") (fun _ => lit "page")
        sample_http sample_mktemp no_write_error sample_convert
        "https://x/page" ∅).2 = ∅
  /\ Parser.parse_document (fun _ => lit "page") (fun _ => lit "page")
       sample_http sample_mktemp disk_full sample_convert "https://x/page" ∅
     = (Raise (Exception "No space left on device"), ∅ ∪ {["/tmp/tmp0001"%string]}).
Proof.
  assert (H : forall suffix, sample_mktemp ∅ suffix ∉ (∅ : gset string))
    by (intros suffix; apply not_elem_of_empty).
  split; [exact H|]. split.
  - destruct (parse_document_files (fun _ => lit "page") (fun _ => lit "page")
                sample_http sample_mktemp no_write_error sample_convert
                "https://x/page" ∅ H) as (_ & _ & Hw).
    exact (Hw _ eq_refl eq_refl).
  - destruct (parse_document_files (fun _ => lit "page") (fun _ => lit "page")
                sample_http sample_mktemp disk_full sample_convert
                "https://x/page" ∅ H) as (_ & _ & Hw).
    exact (proj1 (Hw _ eq_refl eq_refl)).
Defined.

Lemma source_type_of_download_witness :
  Parser.has_dot (lit "page") = false
  /\ Parser.source_type_of
       (Parser.detected_filename (lit "page")
          (Some (lit "text/html; charset=utf-8"))) = lit "html"
  /\ Parser.detected_filename (lit "page")
       (Some (lit "text/html; charset=utf-8")) = lit "page.html".
Proof.
  assert (H : Parser.has_dot (lit "page") = false) by reflexivity.
  split; [exact H|].
  destruct (source_type_of_download (lit "page")
              (Some (lit "text/html; charset=utf-8")) H) as (H1 & H2).
  split.
  - rewrite H1. reflexivity.
  - rewrite H2, H1. reflexivity.
Defined.

End more_instances.
